(** * IndianMarketBriefing: a shallow embedding of [fix_portfolio.py] and
    [india_briefing.py], and the properties of their symbol normaliser,
    quote fetcher, performance calculator and orchestrator.

    Numbers.  The Python code computes on IEEE double-precision values held
    in pandas columns.  They are embedded as exact rationals extended with
    the three special values the code can meet ([inf], [-inf], [nan]):
    rounding and overflow are idealised away, the treatment of missing
    values and of division by zero is kept.  Zero is unsigned and behaves as
    [+0.0].  The statements below are kept to what does not hang on
    rounding: which expression is evaluated, what the special values do,
    where the values are exact (zero, equal operands, division by one), and
    how values are ordered. *)

From Stdlib Require Import QArith Lqa Qfield String Ascii List Permutation Sorted Bool Lia.
From stdpp Require Import gmap strings.

(** ** Extended rationals standing for float64 cells *)

Inductive fl : Type :=
| Fin (q : Q)
| PInf
| NInf
| NaN.

Definition Qltb (a b : Q) : bool := negb (Qle_bool b a).

Definition isnan (x : fl) : bool :=
  match x with NaN => true | _ => false end.

Definition isfinite (x : fl) : bool :=
  match x with Fin _ => true | _ => false end.

Definition signed_inf (negative : bool) : fl :=
  if negative then NInf else PInf.

Definition fneg (x : fl) : fl :=
  match x with
  | Fin q => Fin (- q)
  | PInf => NInf
  | NInf => PInf
  | NaN => NaN
  end.

Definition fadd (x y : fl) : fl :=
  match x, y with
  | NaN, _ | _, NaN => NaN
  | Fin a, Fin b => Fin (a + b)
  | PInf, NInf | NInf, PInf => NaN
  | PInf, _ | _, PInf => PInf
  | NInf, _ | _, NInf => NInf
  end.

Definition fsub (x y : fl) : fl := fadd x (fneg y).

(** [inf * 0] is [nan]; otherwise an infinite factor keeps the product
    infinite with the product of the signs. *)
Definition fmul (x y : fl) : fl :=
  match x, y with
  | NaN, _ | _, NaN => NaN
  | Fin a, Fin b => Fin (a * b)
  | Fin a, PInf | PInf, Fin a =>
      if Qeq_bool a 0 then NaN else signed_inf (Qltb a 0)
  | Fin a, NInf | NInf, Fin a =>
      if Qeq_bool a 0 then NaN else signed_inf (negb (Qltb a 0))
  | PInf, PInf | NInf, NInf => PInf
  | PInf, NInf | NInf, PInf => NInf
  end.

(** numpy's float64 division never raises: [x / 0] is [inf] with the sign of
    [x], and [0 / 0] is [nan]. *)
Definition fdiv (x y : fl) : fl :=
  match x, y with
  | NaN, _ | _, NaN => NaN
  | Fin a, Fin b =>
      if Qeq_bool b 0
      then (if Qeq_bool a 0 then NaN else signed_inf (Qltb a 0))
      else Fin (a / b)
  | Fin _, (PInf | NInf) => Fin 0
  | PInf, Fin b => signed_inf (Qltb b 0)
  | NInf, Fin b => signed_inf (negb (Qltb b 0))
  | (PInf | NInf), (PInf | NInf) => NaN
  end.

(** [x < y] on cells; every comparison with [nan] is false. *)
Definition fltb (x y : fl) : bool :=
  match x, y with
  | NaN, _ | _, NaN => false
  | Fin a, Fin b => Qltb a b
  | NInf, (Fin _ | PInf) => true
  | Fin _, PInf => true
  | _, _ => false
  end.

(** The order of the values, as a relation: [x <= y] holds of no [nan]. *)
Definition fl_le (x y : fl) : Prop :=
  match x, y with
  | NaN, _ | _, NaN => False
  | NInf, _ => True
  | _, PInf => True
  | Fin a, Fin b => (a <= b)%Q
  | _, _ => False
  end.

(** Numeric equality of cells: rationals up to [==], special values as
    themselves ([nan] is identified with itself: this is identity of the
    stored value, not Python's [==]). *)
Definition fl_eq (x y : fl) : Prop :=
  match x, y with
  | Fin a, Fin b => (a == b)%Q
  | PInf, PInf | NInf, NInf | NaN, NaN => True
  | _, _ => False
  end.

Definition fl_eqb (x y : fl) : bool :=
  match x, y with
  | Fin a, Fin b => Qeq_bool a b
  | PInf, PInf | NInf, NInf | NaN, NaN => true
  | _, _ => false
  end.

(** [Series.dropna()]. *)
Definition dropna (s : list fl) : list fl :=
  List.filter (fun x => negb (isnan x)) s.

(** [Series.sum()] with pandas' default [skipna=True]: missing cells are
    filled with zero, then the column is added up. *)
Definition nansum (s : list fl) : fl :=
  fold_left fadd (map (fun x => if isnan x then Fin 0 else x) s) (Fin 0).

(** ** Python string operations used by the scripts *)

(** [s.replace('.NS', '')]: scan from the left, drop each occurrence of
    [.NS] met and resume right after it. *)
Fixpoint replace_NS (s : string) : string :=
  match s with
  | EmptyString => EmptyString
  | String c1 s1 =>
      match s1 with
      | String c2 (String c3 s3) =>
          if (Ascii.eqb c1 "." && Ascii.eqb c2 "N" && Ascii.eqb c3 "S")%bool
          then replace_NS s3
          else String c1 (replace_NS s1)
      | _ => String c1 (replace_NS s1)
      end
  end.

(** [s.endswith(suffix)]. *)
Fixpoint endswith (suffix s : string) : bool :=
  String.eqb s suffix ||
  match s with
  | EmptyString => false
  | String _ s' => endswith suffix s'
  end.

(** [s.startswith(pre)]. *)
Fixpoint startswith (pre s : string) : bool :=
  match pre, s with
  | EmptyString, _ => true
  | String _ _, EmptyString => false
  | String a pre', String c s' => Ascii.eqb c a && startswith pre' s'
  end.

(** [sub in s]. *)
Fixpoint contains (sub s : string) : bool :=
  startswith sub s ||
  match s with
  | EmptyString => false
  | String _ s' => contains sub s'
  end.

(** The reading of the specification's words "strips a known market-suffix
    if present": only a trailing [.NS] is removed.  It is not what the code
    does; it is here to be compared with [replace_NS]. *)
Fixpoint spec_strip_suffix (s : string) : string :=
  match s with
  | EmptyString => EmptyString
  | String c s' =>
      if String.eqb s ".NS" then EmptyString else String c (spec_strip_suffix s')
  end.

(** ** Exceptions *)

Inductive result (A : Type) : Type :=
| Ok (a : A)
| Raise (msg : string).
Arguments Ok {A} a.
Arguments Raise {A} msg.

(** ** The portfolio table

    [india_portfolio.csv] as pandas holds it after [read_csv]: one row per
    position, with its [Symbol], its [Quantity] and whatever other columns
    the file has, by name. *)

Record Position : Type := mkPosition {
  Symbol : string;
  Quantity : fl;
  Extra : list (string * string)
}.

(** ** fix_portfolio.py *)

Module FixPortfolio.

(** The dict literal [symbol_map], in source order. *)
Definition symbol_table : list (string * string) :=
  [ ("MOTSU", "MOTHERSON");
    ("MOTSUM", "MSUMI");
    ("HYUMOT", "HYUNDAI");
    ("TATMOT", "TATAMOTORS");
    ("BANBAN", "BANDHANBNK");
    ("BANMAH", "MAHABANK");
    ("CANBAN", "CANBK");
    ("HDFBAN", "HDFCBANK");
    ("IDFBAN", "IDFCFIRSTB");
    ("INDBA", "INDUSINDBK");
    ("YESBAN", "YESBANK");
    ("AMBCE", "AMBUJACEM");
    ("AARIND", "AARTIIND");
    ("UNIP", "UNIPARTS");
    ("PATEN", "PATELENG");
    ("ONE97", "PAYTM");
    ("ICINIF", "ICICINIFTY");
    ("ADAWIL", "AWL");
    ("BHADYN", "BDL");
    ("COMENG", "CUMMINSIND");
    ("SUZENE", "SUZLON");
    ("BAFINS", "BAJFINANCE");
    ("CDSL", "CDSL");
    ("JIOFIN", "JIOFIN");
    ("LICHF", "LICHSGFIN");
    ("MAHFIN", "M&MFIN");
    ("HCLTEC", "HCLTECH");
    ("TATTEC", "TATATECH");
    ("ADAPOR", "ADANIPORTS");
    ("GMRINF", "GMRAIRPORT");
    ("ZEEENT", "ZEEL");
    ("HINCOP", "HINDCOPPER");
    ("ASIPAI", "ASIANPAINT");
    ("ORIPAP", "ORIENTPPR");
    ("BIOCON", "BIOCON");
    ("JAIIRR", "JISLJALEQS");
    ("BHAPET", "BPCL");
    ("INDOIL", "IOC");
    ("RELIND", "RELIANCE");
    ("SCI", "SCI");
    ("SAIL", "SAIL");
    ("TATSTE", "TATASTEEL");
    ("ADAENT", "ADANIENT");
    ("GMRINFRA", "GMRAIRPORT");
    ("GMRPOWER", "GMRPWR");
    ("ICICINIFTY", "ICICINIFTY");
    ("RELPOW", "RPOWER");
    ("RELINF", "RELINFRA");
    ("ALOIND", "ALOKINDS");
    ("ZENTEC", "ZENTEC") ]%string.

Definition symbol_map : gmap string string := list_to_map symbol_table.

(** [get_correct_symbol(sym)]; the [Symbol] column holds text, on which
    [str(sym)] is the identity. *)
Definition get_correct_symbol (sym : string) : string :=
  let clean_sym := replace_NS sym in
  match symbol_map !! clean_sym with
  | Some canonical => canonical
  | None => clean_sym
  end.

(** [fix_portfolio()].  The script reads the file with [pd.read_csv], maps
    the [Symbol] column and writes the frame back with [to_csv]; when
    reading raises, the exception is caught and nothing is written.  The
    reader and the writer are pandas'; they are taken as they come.  A row
    of the frame is its [Symbol] cell, as the text [str] gives for it, and
    the cells of the other columns ([Quantity] among them) as pandas holds
    them. *)
Section CsvFile.
Context {csv cells : Type}.
Variable read_csv : csv -> result (list (string * cells)).
Variable to_csv : list (string * cells) -> csv.

Definition fix_symbols (df : list (string * cells)) : list (string * cells) :=
  map (fun row => (get_correct_symbol row.1, row.2)) df.

Definition fix_portfolio (file : csv) : csv :=
  match read_csv file with
  | Ok df => to_csv (fix_symbols df)
  | Raise _ => file
  end.
End CsvFile.

End FixPortfolio.

(** ** india_briefing.py *)

#[global] Instance result_ret : MRet result := fun _ a => Ok a.
#[global] Instance result_bind : MBind result := fun _ _ k r =>
  match r with
  | Ok a => k a
  | Raise msg => Raise msg
  end.

(** What a run does to the outside world, in order: the stage functions it
    enters and the external requests it sends.  Console output is left out. *)
Inductive stage : Type :=
| LoadPortfolio
| FetchMarketData
| CalculatePerformance
| FetchNews
| GenerateAnalysis
| SendTelegramReport
| SendErrorAlert.

Inductive event : Type :=
| Enter (s : stage)
| ReadCsv
| YfDownload (tickers : list string)
| FeedParse (url : string)
| GeminiGenerate (prompt : string)
| TelegramPost (text : string).

(** Computations that may raise and that log their events; the log survives
    an exception. *)
Definition M (A : Type) : Type := list event -> result A * list event.

#[global] Instance M_ret : MRet M := fun _ a log => (Ok a, log).
#[global] Instance M_bind : MBind M := fun _ _ k m log =>
  match m log with
  | (Ok a, log') => k a log'
  | (Raise msg, log') => (Raise msg, log')
  end.

Definition emit (e : event) : M unit := fun log => (Ok tt, log ++ [e]).
Definition lift {A : Type} (r : result A) : M A := fun log => (r, log).
Definition raise {A : Type} (msg : string) : M A := lift (Raise msg).

(** [try: body except Exception as e: handler(str(e))]. *)
Definition try_except {A : Type} (body : M A) (handler : string -> M A) : M A :=
  fun log =>
    match body log with
    | (Ok a, log') => (Ok a, log')
    | (Raise msg, log') => handler msg log'
    end.

(** The terminal states of one run: the early [return] of the weekend guard,
    the end of the [try] block, and the [except] branch. *)
Inductive outcome : Type :=
| Skip
| Success
| Failed (msg : string).

(** The enriched frame of [calculate_performance], row by row. *)
Record Row : Type := mkRow {
  position : Position;
  CurrentPrice : fl;
  ChangePct : fl;
  CurrentValue : fl;
  DailyPnL : fl
}.

(** The columns [['Symbol', 'ChangePct', 'CurrentPrice']] of a row. *)
Definition mover_columns (r : Row) : string * fl * fl :=
  (Symbol (position r), ChangePct r, CurrentPrice r).

Record Performance : Type := mkPerformance {
  total_value : fl;
  total_daily_pnl : fl;
  top_gainers : list (string * fl * fl);
  top_losers : list (string * fl * fl);
  full_df : list Row
}.

(** *** Ranking

    [DataFrame.nlargest(n, column)] and [nsmallest] belong to pandas, not to
    this repository; they are embedded by their documented contract with the
    default [keep='first']: the rows ordered by the column, descending
    (resp. ascending), rows with a missing key last, equal keys in their
    original order, cut to the first [n]. *)

Section Ranking.
Context {A : Type}.
Variable outranks : A -> A -> bool.

(** [x] comes from further left in the frame than every row of [l]: it
    goes in front of the first row that does not outrank it. *)
Fixpoint insert_row (x : A) (l : list A) : list A :=
  match l with
  | [] => [x]
  | y :: l' => if outranks y x then y :: insert_row x l' else x :: y :: l'
  end.

Definition rank_rows (rows : list A) : list A :=
  fold_right insert_row [] rows.

(** [a] may stand before [b]: [b] does not outrank it. *)
Definition in_order (a b : A) : Prop := outranks b a = false.
End Ranking.

(** [a] is placed strictly before [b] when ordering by descending key. *)
Definition outranks_desc (a b : fl) : bool :=
  match a, b with
  | NaN, _ => false
  | _, NaN => true
  | _, _ => fltb b a
  end.

(** [a] is placed strictly before [b] when ordering by ascending key. *)
Definition outranks_asc (a b : fl) : bool :=
  match a, b with
  | NaN, _ => false
  | _, NaN => true
  | _, _ => fltb a b
  end.

Definition nlargest {A : Type} (n : nat) (column : A -> fl) (rows : list A) : list A :=
  firstn n (rank_rows (fun a b => outranks_desc (column a) (column b)) rows).

Definition nsmallest {A : Type} (n : nat) (column : A -> fl) (rows : list A) : list A :=
  firstn n (rank_rows (fun a b => outranks_asc (column a) (column b)) rows).

(** [Series.map(d)] for a dict [d]: a key that is absent gives [nan]. *)
Definition series_map (d : gmap string fl) (key : string) : fl :=
  default NaN (d !! key).

(** [s.iloc[-k]], for [k >= 1]. *)
Definition iloc_back (k : nat) (s : list fl) : result fl :=
  match rev s !! (k - 1)%nat with
  | Some v => Ok v
  | None => Raise "IndexError: single positional indexer is out-of-bounds"
  end.

(** [close_data[ticker]]. *)
Definition getitem (close_data : gmap string (list fl)) (ticker : string)
  : result (list fl) :=
  match close_data !! ticker with
  | Some s => Ok s
  | None => Raise ("KeyError: " +:+ ticker)
  end.

Module IndiaBriefing.

(** [load_portfolio]: [None] when [read_csv] raised. *)
Definition load_portfolio (csv : option (list Position)) : option (list Position) :=
  match csv with
  | None => None
  | Some df =>
      Some (map (fun row =>
                   {| Symbol := if negb (endswith ".NS" (Symbol row))
                                then Symbol row +:+ ".NS"
                                else Symbol row;
                      Quantity := Quantity row;
                      Extra := Extra row |}) df)
  end.

(** The body of the [try] block of [fetch_market_data] for one ticker:
    the price and the change to record. *)
Definition ticker_quote (close_data : gmap string (list fl)) (ticker : string)
  : result (fl * fl) :=
  s ← getitem close_data ticker;
  let ticker_series := dropna s in
  if (2 <=? length ticker_series)%nat then
    current_price ← iloc_back 1 ticker_series;
    prev_close ← iloc_back 2 ticker_series;
    let change := fmul (fdiv (fsub current_price prev_close) prev_close) (Fin 100) in
    mret (current_price, change)
  else if (length ticker_series =? 1)%nat then
    current_price ← iloc_back 1 ticker_series;
    mret (current_price, Fin 0)
  else
    mret (Fin 0, Fin 0).

(** One turn of the loop over [all_tickers], [except] branch included. *)
Definition record_ticker (close_data : gmap string (list fl))
    (dicts : gmap string fl * gmap string fl) (ticker : string)
  : gmap string fl * gmap string fl :=
  let '(current_prices, percent_changes) := dicts in
  match ticker_quote close_data ticker with
  | Ok (current_price, change) =>
      (<[ticker := current_price]> current_prices,
       <[ticker := change]> percent_changes)
  | Raise _ =>
      (<[ticker := Fin 0]> current_prices,
       <[ticker := Fin 0]> percent_changes)
  end.

Definition indices : list string := ["^NSEI"; "^BSESN"].

Definition all_tickers (df : list Position) : list string :=
  map Symbol df ++ indices.

(** The divisor of the daily P&L formula. *)
Definition pnl_divisor (change_pct : fl) : fl :=
  fadd (Fin 1) (fdiv change_pct (Fin 100)).

Definition enrich (current_prices percent_changes : gmap string fl)
    (p : Position) : Row :=
  let price := series_map current_prices (Symbol p) in
  let change := series_map percent_changes (Symbol p) in
  let value := fmul (Quantity p) price in
  {| position := p;
     CurrentPrice := price;
     ChangePct := change;
     CurrentValue := value;
     DailyPnL := fsub value (fdiv value (pnl_divisor change)) |}.

Definition calculate_performance (df : list Position)
    (current_prices percent_changes : gmap string fl) : Performance :=
  let df := map (enrich current_prices percent_changes) df in
  {| total_value := nansum (map CurrentValue df);
     total_daily_pnl := nansum (map DailyPnL df);
     top_gainers := map mover_columns (nlargest 3 ChangePct df);
     top_losers := map mover_columns (nsmallest 3 ChangePct df);
     full_df := df |}.

(** [query.replace('.NS', '')] in [fetch_news]. *)
Definition search_term (query : string) : string := replace_NS query.

Section World.
(** The file and the services the script talks to: the content of
    [india_portfolio.csv] ([None] when it cannot be read); the [Close] frame
    of [yf.download(all_tickers, period="5d")], by ticker; [urllib.parse.quote];
    the (title, link) pairs of [feedparser.parse(url).entries]; the prompt
    text, whose wording is no part of the contract; the text of
    [model.generate_content(prompt)]; the status code of [requests.post]. *)
Variable portfolio_csv : option (list Position).
Variable yf_download : list string -> result (gmap string (list fl)).
Variable urllib_quote : string -> string.
Variable feedparser_parse : string -> result (list (string * string)).
Variable render_prompt :
  Performance -> (fl * fl) * (fl * fl) -> gmap string string -> string.
Variable generate_content : string -> result string.
Variable requests_post : string -> result nat.

Definition fetch_market_data (df : list Position)
  : M (gmap string fl * gmap string fl) :=
  emit (Enter FetchMarketData);;
  let tickers := all_tickers df in
  emit (YfDownload tickers);;
  close_data ← lift (yf_download tickers);
  mret (fold_left (record_ticker close_data) tickers (∅, ∅)).

Definition news_url (query : string) : string :=
  let encoded_term := urllib_quote (search_term query +:+ " India Business") in
  "https://news.google.com/rss/search?q=" +:+ encoded_term
    +:+ "&hl=en-IN&gl=IN&ceid=IN:en".

Definition newline : string := String (ascii_of_nat 10) EmptyString.

Definition fetch_news_step (news_items : gmap string string) (query : string)
  : M (gmap string string) :=
  emit (FeedParse (news_url query));;
  entries ← lift (feedparser_parse (news_url query));
  let items :=
    map (fun entry : string * string =>
           "- [" +:+ entry.1 +:+ "](" +:+ entry.2 +:+ ")") (firstn 2 entries) in
  match items with
  | [] => mret news_items
  | _ => mret (<[query := String.concat newline items]> news_items)
  end.

Fixpoint fetch_news_loop (queries : list string) (news_items : gmap string string)
  : M (gmap string string) :=
  match queries with
  | [] => mret news_items
  | query :: rest =>
      news_items' ← fetch_news_step news_items query;
      fetch_news_loop rest news_items'
  end.

Definition fetch_news (queries : list string) : M (gmap string string) :=
  emit (Enter FetchNews);;
  fetch_news_loop queries ∅.

Definition generate_analysis (perf : Performance)
    (index_data : (fl * fl) * (fl * fl)) (news : gmap string string) : M string :=
  emit (Enter GenerateAnalysis);;
  let prompt := render_prompt perf index_data news in
  try_except
    (emit (GeminiGenerate prompt);; lift (generate_content prompt))
    (fun e => mret ("Error generating analysis: " +:+ e)).

Definition send_telegram_report (report : string) : M unit :=
  emit (Enter SendTelegramReport);;
  emit (TelegramPost report);;
  _ ← lift (requests_post report);
  mret tt.

(** The alert text; the warning sign that opens it in the source is
    left out. *)
Definition send_error_alert (error_message : string) : M unit :=
  emit (Enter SendErrorAlert);;
  let text := "Error fetching India Data: " +:+ error_message in
  try_except
    (emit (TelegramPost text);;
     _ ← lift (requests_post text);
     mret tt)
    (fun _ => mret tt).

(** [run_briefing()]; [today] is [datetime.datetime.now().weekday()],
    Monday being 0 and Sunday 6. *)
Definition run_briefing (today : nat) : M outcome :=
  if (5 <=? today)%nat then mret Skip
  else
    try_except
      (emit (Enter LoadPortfolio);;
       emit ReadCsv;;
       match load_portfolio portfolio_csv with
       | None => raise "Failed to load portfolio CSV"
       | Some df =>
           '(current_prices, percent_changes) ← fetch_market_data df;
           emit (Enter CalculatePerformance);;
           let perf := calculate_performance df current_prices percent_changes in
           let index_data :=
             ((default (Fin 0) (current_prices !! "^NSEI"),
               default (Fin 0) (percent_changes !! "^NSEI")),
              (default (Fin 0) (current_prices !! "^BSESN"),
               default (Fin 0) (percent_changes !! "^BSESN"))) in
           let movers := map (fun m : string * fl * fl => m.1.1) (top_gainers perf)
                         ++ map (fun m : string * fl * fl => m.1.1) (top_losers perf) in
           let search_queries :=
             elements (list_to_set ("NIFTY 50" :: movers) : gset string) in
           news ← fetch_news search_queries;
           report ← generate_analysis perf index_data news;
           send_telegram_report report;;
           mret Success
       end)
      (fun e => send_error_alert e;; mret (Failed e)).
End World.

End IndiaBriefing.

(** ** Auxiliary definitions used in the statements *)

(** The position has an entry in [current_prices]. *)
Definition has_price (cp : gmap string fl) (p : Position) : bool :=
  bool_decide (is_Some (cp !! Symbol p)).

(** What [record_ticker] records for the outcome of the [try] block. *)
Definition quote_or_default (r : result (fl * fl)) : fl * fl :=
  match r with
  | Ok quote => quote
  | Raise _ => (Fin 0, Fin 0)
  end.

(** The lines [fetch_news] builds from the entries of a feed. *)
Definition news_lines (entries : list (string * string)) : list string :=
  map (fun entry : string * string =>
         "- [" +:+ entry.1 +:+ "](" +:+ entry.2 +:+ ")") (firstn 2 entries).

(** A reader and a writer for files with the columns [Symbol], [Quantity]
    and one column of text, [Note], following the documented defaults of
    pandas for text: [read_csv] takes the strings of [na_values] for missing
    values, [str] of a missing [Symbol] is [nan], and [to_csv] writes a
    missing cell as the empty string.  Numeric fields stand for the number
    they denote, and the [Note] column is one that pandas keeps as text. *)
Definition na_values : list string :=
  [""; "#N/A"; "#N/A N/A"; "#NA"; "-1.#IND"; "-1.#QNAN"; "-NaN"; "-nan";
   "1.#IND"; "1.#QNAN"; "<NA>"; "N/A"; "NA"; "NULL"; "NaN"; "None"; "n/a";
   "nan"; "null"]%string.

Definition is_na (field : string) : bool := existsb (String.eqb field) na_values.

Definition note_read_csv (file : list (string * fl * string))
  : result (list (string * (fl * option string))) :=
  Ok (map (fun line : string * fl * string =>
             (if is_na line.1.1 then "nan"%string else line.1.1,
              (line.1.2, if is_na line.2 then None else Some line.2))) file).

Definition note_to_csv (df : list (string * (fl * option string)))
  : list (string * fl * string) :=
  map (fun row : string * (fl * option string) =>
         (row.1, row.2.1, default ""%string row.2.2)) df.

(** A series has only missing observations. *)
Definition all_nan (s : list fl) : Prop := Forall (fun x => x = NaN) s.

(** ** Sample inputs *)

Definition aaa_position : Position :=
  {| Symbol := "AAA.NS"; Quantity := Fin 10; Extra := [] |}.

Definition gappy_close : gmap string (list fl) :=
  {["AAA.NS" := [NaN; Fin 100; NaN; Fin 110]]}.

Definition gappy_download (tickers : list string) : result (gmap string (list fl)) :=
  Ok gappy_close.

Definition empty_download (tickers : list string) : result (gmap string (list fl)) :=
  Ok ∅.

Definition flat_close : gmap string (list fl) :=
  {["AAA.NS" := [Fin 110; NaN; Fin 110]]}.

Definition flat_download (tickers : list string) : result (gmap string (list fl)) :=
  Ok flat_close.

Definition raw_position : Position :=
  {| Symbol := "AAA"; Quantity := Fin 10; Extra := [] |}.

Definition two_day_close : gmap string (list fl) :=
  {["AAA.NS" := [Fin 100; Fin 110]]}.

Definition demo_download (tickers : list string) : result (gmap string (list fl)) :=
  Ok two_day_close.

Definition demo_feed (url : string) : result (list (string * string)) :=
  Ok [("Markets rally"%string, "https://example.org/1"%string)].

Definition demo_render (perf : Performance) (index_data : (fl * fl) * (fl * fl))
    (news : gmap string string) : string := "prompt".

Definition demo_generate (prompt : string) : result string := Ok "report"%string.

Definition demo_post (text : string) : result nat := Ok 200%nat.

Definition demo_headlines (url : string) : list (string * string) :=
  [("Markets rally"%string, "https://example.org/1"%string)].

Definition failing_feed (url : string) : result (list (string * string)) :=
  Raise "feed unavailable".

Definition failing_download (tickers : list string) : result (gmap string (list fl)) :=
  Raise "price service unavailable".

Definition failing_post (text : string) : result nat :=
  Raise "chat unreachable".

Definition tie_rows : list Row :=
  map (fun sc : string * Q =>
         {| position := {| Symbol := sc.1; Quantity := Fin 1; Extra := [] |};
            CurrentPrice := Fin 1; ChangePct := Fin sc.2;
            CurrentValue := Fin 1; DailyPnL := Fin 0 |})
      [("A"%string, 5%Q); ("B"%string, 7%Q); ("C"%string, 5%Q);
       ("D"%string, 7%Q); ("E"%string, 5%Q)].

(** * Properties *)

Import FixPortfolio IndiaBriefing.

(** ** Arithmetic on cells *)

Lemma Qeq_bool_false_iff (a b : Q) : Qeq_bool a b = false <-> ~ (a == b)%Q.
Proof.
  split.
  - apply Qeq_bool_neq.
  - intros Hne. destruct (Qeq_bool a b) eqn:E; [|reflexivity].
    apply Qeq_bool_iff in E. contradiction.
Qed.

Lemma Qltb_lt (a b : Q) : Qltb a b = true <-> (a < b)%Q.
Proof.
  unfold Qltb. rewrite negb_true_iff. split.
  - intros H. apply Qnot_le_lt. intros Hle. apply Qle_bool_iff in Hle. congruence.
  - intros H. destruct (Qle_bool b a) eqn:E; [|reflexivity].
    apply Qle_bool_iff in E. lra.
Qed.

Lemma Qltb_ge (a b : Q) : Qltb a b = false <-> (b <= a)%Q.
Proof.
  unfold Qltb. rewrite negb_false_iff. apply Qle_bool_iff.
Qed.

#[global] Instance fl_eq_equiv : Equivalence fl_eq.
Proof.
  split.
  - intros [q| | |]; simpl; auto. reflexivity.
  - intros [a| | |] [b| | |]; simpl; auto. intros H. symmetry. exact H.
  - intros [a| | |] [b| | |] [c| | |]; simpl; auto; try tauto.
    intros H1 H2. rewrite H1. exact H2.
Qed.

Lemma fl_eqb_eq (x y : fl) : fl_eqb x y = true <-> fl_eq x y.
Proof.
  destruct x, y; simpl; try tauto; try (split; [discriminate | tauto]).
  apply Qeq_bool_iff.
Qed.

Lemma fadd_zero_r (x : fl) : fl_eq (fadd x (Fin 0)) x.
Proof. destruct x; simpl; auto. lra. Qed.

#[global] Instance fadd_proper : Proper (fl_eq ==> fl_eq ==> fl_eq) fadd.
Proof.
  intros [a| | |] [b| | |] Hab [c| | |] [d| | |] Hcd; simpl in *; auto; try tauto.
  rewrite Hab, Hcd. reflexivity.
Qed.

Lemma nansum_acc_proper (l : list fl) (a b : fl) :
  fl_eq a b -> fl_eq (fold_left fadd l a) (fold_left fadd l b).
Proof.
  revert a b. induction l as [|x l IH]; intros a b Hab; simpl; [exact Hab|].
  apply IH. rewrite Hab. reflexivity.
Qed.

(** ** calculate_performance: the daily P&L *)

Lemma full_df_rows (df : list Position) (cp pc : gmap string fl) (r : Row) :
  r ∈ full_df (calculate_performance df cp pc) ->
  exists p, p ∈ df /\ r = enrich cp pc p.
Proof.
  unfold calculate_performance; simpl. intros Hr.
  apply list_elem_of_fmap in Hr as (p & -> & Hp). eauto.
Qed.

Lemma pnl_divisor_fin (c : Q) : pnl_divisor (Fin c) = Fin (1 + c / 100).
Proof. reflexivity. Qed.

Lemma pnl_divisor_zero_iff (c : Q) : (1 + c / 100 == 0)%Q <-> (c == -100)%Q.
Proof.
  split; intros H; [|rewrite H; reflexivity].
  assert (E : (c == (1 + c / 100) * 100 - 100)%Q) by field.
  rewrite E, H. reflexivity.
Qed.

(** C1, as stated, fails: a position quoted at 0 percent whose symbol has
    no entry in [current_prices] has a missing current value, and its daily
    P&L is [nan], not 0. *)
Lemma daily_pnl_missing_at_zero_percent :
  exists r : Row,
    r ∈ full_df (calculate_performance [aaa_position] ∅ {["AAA.NS" := Fin 0]}) /\
    ChangePct r = Fin 0 /\
    DailyPnL r = NaN /\
    ~ fl_eq (DailyPnL r) (Fin 0).
Proof.
  exists (enrich ∅ {["AAA.NS" := Fin 0]} aaa_position).
  split; [apply list_elem_of_here|].
  split; [vm_compute; reflexivity|].
  assert (H : DailyPnL (enrich ∅ {["AAA.NS" := Fin 0]} aaa_position) = NaN)
    by (vm_compute; reflexivity).
  rewrite H. split; [reflexivity | simpl; tauto].
Qed.

(** C1, amended.  Every row of the frame computed by [calculate_performance]
    has [CurrentValue = Quantity * CurrentPrice] and
    [DailyPnL = CurrentValue - CurrentValue / (1 + ChangePct/100)], each
    operation being the one of the cells; when the change is 0 the daily
    P&L is 0 if the current value is a finite number, and [nan] if it is
    not. *)
Theorem daily_pnl_formula (df : list Position) (cp pc : gmap string fl) (r : Row) :
  r ∈ full_df (calculate_performance df cp pc) ->
  CurrentValue r = fmul (Quantity (position r)) (CurrentPrice r) /\
  DailyPnL r
  = fsub (CurrentValue r)
         (fdiv (CurrentValue r) (fadd (Fin 1) (fdiv (ChangePct r) (Fin 100)))) /\
  forall c : Q, ChangePct r = Fin c -> (c == 0)%Q ->
    (forall v : Q, CurrentValue r = Fin v -> fl_eq (DailyPnL r) (Fin 0)) /\
    (isfinite (CurrentValue r) = false -> DailyPnL r = NaN).
Proof.
  intros Hr. apply full_df_rows in Hr as (p & _ & ->).
  split; [reflexivity|]. split; [reflexivity|].
  intros c Hc Hzero. cbn [DailyPnL CurrentValue ChangePct enrich] in *.
  rewrite Hc, pnl_divisor_fin.
  assert (Hd : Qeq_bool (1 + c / 100) 0 = false).
  { apply Qeq_bool_false_iff. rewrite pnl_divisor_zero_iff, Hzero. discriminate. }
  assert (Hpos : Qltb (1 + c / 100) 0 = false).
  { apply Qltb_ge. rewrite Hzero. discriminate. }
  split.
  - intros v Hv. rewrite Hv. unfold fdiv. rewrite Hd.
    change (v + - (v / (1 + c / 100)) == 0)%Q. rewrite Hzero. field.
  - destruct (fmul (Quantity p) (series_map cp (Symbol p))) as [v| | |];
      [discriminate | | |]; intros _; unfold fdiv; rewrite ?Hpos; reflexivity.
Qed.

Lemma daily_pnl_formula_witness :
  fl_eq (DailyPnL (enrich {["AAA.NS" := Fin 110]} {["AAA.NS" := Fin 0]} aaa_position))
        (Fin 0).
Proof.
  refine (proj1 (proj2 (proj2 (daily_pnl_formula [aaa_position]
            {["AAA.NS" := Fin 110]} {["AAA.NS" := Fin 0]}
            (enrich {["AAA.NS" := Fin 110]} {["AAA.NS" := Fin 0]} aaa_position) _))
            0%Q _ _) (10 * 110)%Q _).
  - apply list_elem_of_here.
  - vm_compute. reflexivity.
  - reflexivity.
  - vm_compute. reflexivity.
Defined.

Lemma daily_pnl_of_row (df : list Position) (cp pc : gmap string fl) (r : Row) :
  r ∈ full_df (calculate_performance df cp pc) ->
  DailyPnL r = fsub (CurrentValue r) (fdiv (CurrentValue r) (pnl_divisor (ChangePct r))).
Proof. intros Hr. apply full_df_rows in Hr as (p & _ & ->). reflexivity. Qed.

(** C2, as stated, fails: a position quoted at -100 percent makes the divisor
    of the formula zero, and the division is carried out: the daily P&L of
    the row is [-inf]. *)
Lemma daily_pnl_divides_by_zero :
  exists r : Row,
    r ∈ full_df (calculate_performance [aaa_position]
                   {["AAA.NS" := Fin 110]} {["AAA.NS" := Fin (-100)]}) /\
    ChangePct r = Fin (-100) /\
    fl_eq (pnl_divisor (ChangePct r)) (Fin 0) /\
    DailyPnL r = NInf.
Proof.
  exists (enrich {["AAA.NS" := Fin 110]} {["AAA.NS" := Fin (-100)]} aaa_position).
  split; [apply list_elem_of_here|].
  split; [vm_compute; reflexivity|].
  split; vm_compute; reflexivity.
Qed.

(** C2, amended.  [calculate_performance] has no guard at -100 percent:
    for a row quoted at -100 the divisor [1 + ChangePct/100] is zero and the
    division is carried out by the float rules, without raising: the daily
    P&L is [-inf] for a positive finite current value, [+inf] for a negative
    one, and [nan] for a zero, infinite or missing one. *)
Theorem daily_pnl_unguarded (df : list Position) (cp pc : gmap string fl)
    (r : Row) (c : Q) :
  r ∈ full_df (calculate_performance df cp pc) ->
  ChangePct r = Fin c ->
  (c == -100)%Q ->
  fl_eq (pnl_divisor (ChangePct r)) (Fin 0) /\
  DailyPnL r = match CurrentValue r with
               | Fin v => if Qeq_bool v 0 then NaN
                          else if Qltb 0 v then NInf else PInf
               | _ => NaN
               end.
Proof.
  intros Hr Hc Hc100. rewrite (daily_pnl_of_row _ _ _ _ Hr), Hc, pnl_divisor_fin.
  assert (Hzero : (1 + c / 100 == 0)%Q) by (apply pnl_divisor_zero_iff, Hc100).
  assert (Hd : Qeq_bool (1 + c / 100) 0 = true) by (apply Qeq_bool_iff, Hzero).
  assert (Hneg : Qltb (1 + c / 100) 0 = false) by (apply Qltb_ge; rewrite Hzero; discriminate).
  split; [exact Hzero|].
  destruct (CurrentValue r) as [v| | |]; unfold fdiv; rewrite ?Hd, ?Hneg;
    try reflexivity.
  destruct (Qeq_bool v 0) eqn:Hv; [reflexivity|].
  apply Qeq_bool_false_iff in Hv.
  destruct (Qltb v 0) eqn:Hlt.
  - apply Qltb_lt in Hlt.
    assert (H0 : Qltb 0 v = false) by (apply Qltb_ge; lra).
    rewrite H0. reflexivity.
  - apply Qltb_ge in Hlt.
    assert (H0 : Qltb 0 v = true) by (apply Qltb_lt; lra).
    rewrite H0. reflexivity.
Qed.

Lemma daily_pnl_unguarded_witness :
  DailyPnL (enrich {["AAA.NS" := Fin 110]} {["AAA.NS" := Fin (-100)]} aaa_position)
  = NInf.
Proof.
  destruct (daily_pnl_unguarded [aaa_position]
              {["AAA.NS" := Fin 110]} {["AAA.NS" := Fin (-100)]}
              (enrich {["AAA.NS" := Fin 110]} {["AAA.NS" := Fin (-100)]} aaa_position)
              (-100)%Q) as [_ H].
  - apply list_elem_of_here.
  - vm_compute. reflexivity.
  - reflexivity.
  - rewrite H. vm_compute. reflexivity.
Defined.

(** ** calculate_performance: positions without a quote *)

Lemma enrich_unmatched (cp pc : gmap string fl) (p : Position) :
  cp !! Symbol p = None ->
  CurrentPrice (enrich cp pc p) = NaN /\
  CurrentValue (enrich cp pc p) = NaN /\
  DailyPnL (enrich cp pc p) = NaN.
Proof.
  intros Hnone. unfold enrich, series_map; simpl. rewrite Hnone; simpl.
  assert (Hv : fmul (Quantity p) NaN = NaN) by (destruct (Quantity p); reflexivity).
  rewrite Hv. auto.
Qed.

Lemma nansum_skips_unmatched (column : Row -> fl) (cp pc : gmap string fl)
    (df : list Position) (a b : fl) :
  (forall p, cp !! Symbol p = None -> column (enrich cp pc p) = NaN) ->
  fl_eq a b ->
  fl_eq
    (fold_left fadd
       (map (fun x => if isnan x then Fin 0 else x)
            (map column (map (enrich cp pc) df))) a)
    (fold_left fadd
       (map (fun x => if isnan x then Fin 0 else x)
            (map column (map (enrich cp pc) (List.filter (has_price cp) df)))) b).
Proof.
  intros Hcol. revert a b. induction df as [|p df IH]; intros a b Hab.
  - exact Hab.
  - simpl List.filter. destruct (has_price cp p) eqn:Hp.
    + simpl. apply IH. rewrite Hab. reflexivity.
    + apply bool_decide_eq_false in Hp.
      assert (Hnone : cp !! Symbol p = None).
      { destruct (cp !! Symbol p) eqn:E; [|reflexivity]. destruct Hp; eauto. }
      simpl. rewrite (Hcol p Hnone). simpl.
      apply IH. rewrite fadd_zero_r. exact Hab.
Qed.

(** C6, as stated, fails: a position whose symbol is in neither dict gets a
    missing price ([nan]), not the price 0, and its current value is missing
    too. *)
Lemma unmatched_price_is_missing :
  map (fun r => (CurrentPrice r, CurrentValue r))
      (full_df (calculate_performance [aaa_position] ∅ ∅)) = [(NaN, NaN)] /\
  ~ fl_eq NaN (Fin 0).
Proof. split; [reflexivity | simpl; tauto]. Qed.

(** C6, amended.  A position whose symbol has no entry in [current_prices]
    gets a missing price, hence a missing current value and daily P&L; the
    sums skip missing cells, so both totals equal the totals computed over
    the positions that have an entry. *)
Theorem unmatched_positions_contribute_nothing (df : list Position)
    (cp pc : gmap string fl) :
  let perf := calculate_performance df cp pc in
  let matched := calculate_performance (List.filter (has_price cp) df) cp pc in
  (forall r, r ∈ full_df perf -> cp !! Symbol (position r) = None ->
     CurrentPrice r = NaN /\ CurrentValue r = NaN /\ DailyPnL r = NaN) /\
  fl_eq (total_value perf) (total_value matched) /\
  fl_eq (total_daily_pnl perf) (total_daily_pnl matched).
Proof.
  simpl. split; [|split].
  - intros r Hr Hnone. apply full_df_rows in Hr as (p & _ & ->).
    apply enrich_unmatched. exact Hnone.
  - apply nansum_skips_unmatched; [|reflexivity].
    intros p Hp. apply enrich_unmatched, Hp.
  - apply nansum_skips_unmatched; [|reflexivity].
    intros p Hp. apply enrich_unmatched, Hp.
Qed.

(** ** The symbol normaliser *)

Lemma prefix_NS_cons (c1 c2 c3 : ascii) (s : string) :
  startswith ".NS" (String c1 (String c2 (String c3 s)))
  = (Ascii.eqb c1 "." && Ascii.eqb c2 "N" && Ascii.eqb c3 "S")%bool.
Proof.
  cbn [startswith]. rewrite andb_true_r, andb_assoc. reflexivity.
Qed.

(** A string with no [.NS] in it is left alone. *)
Lemma replace_NS_clean (s : string) :
  contains ".NS" s = false -> replace_NS s = s.
Proof.
  induction s as [|c1 s1 IH]; [reflexivity|].
  intros H. cbn [contains] in H. apply orb_false_iff in H as [Hpre Hrest].
  specialize (IH Hrest).
  destruct s1 as [|c2 [|c3 s3]].
  - reflexivity.
  - reflexivity.
  - rewrite prefix_NS_cons in Hpre.
    change (replace_NS (String c1 (String c2 (String c3 s3))))
      with (if (Ascii.eqb c1 "." && Ascii.eqb c2 "N" && Ascii.eqb c3 "S")%bool
            then replace_NS s3
            else String c1 (replace_NS (String c2 (String c3 s3)))).
    rewrite Hpre, IH. reflexivity.
Qed.

(** An occurrence that starts after a clean prefix is removed, wherever it
    stands. *)
Lemma replace_NS_app (a b : string) :
  contains ".NS" a = false ->
  replace_NS (a +:+ ".NS" +:+ b) = a +:+ replace_NS b.
Proof.
  induction a as [|c1 a1 IH]; intros H; [reflexivity|].
  cbn [contains] in H. apply orb_false_iff in H as [Hpre Hrest].
  specialize (IH Hrest).
  assert (Hstep : replace_NS (String c1 (a1 +:+ ".NS" +:+ b))
                  = String c1 (replace_NS (a1 +:+ ".NS" +:+ b))).
  { destruct a1 as [|c2 [|c3 a3]].
    - simpl. destruct (Ascii.eqb c1 "."); reflexivity.
    - simpl. rewrite andb_false_r. reflexivity.
    - rewrite prefix_NS_cons in Hpre.
      change (replace_NS (String c1 (String c2 (String c3 a3) +:+ ".NS" +:+ b)))
        with (if (Ascii.eqb c1 "." && Ascii.eqb c2 "N" && Ascii.eqb c3 "S")%bool
              then replace_NS (a3 +:+ ".NS" +:+ b)
              else String c1 (replace_NS (String c2 (String c3 a3) +:+ ".NS" +:+ b))).
      rewrite Hpre. reflexivity. }
  change (String c1 a1 +:+ ".NS" +:+ b) with (String c1 (a1 +:+ ".NS" +:+ b)).
  rewrite Hstep, IH. reflexivity.
Qed.

Lemma symbol_table_values_fixed :
  forallb (fun kv : string * string =>
             String.eqb (get_correct_symbol kv.2) kv.2) symbol_table = true.
Proof. vm_compute. reflexivity. Qed.

Lemma symbol_map_value_fixed (k v : string) :
  symbol_map !! k = Some v -> get_correct_symbol v = v.
Proof.
  intros H. apply elem_of_list_to_map_2 in H.
  pose proof symbol_table_values_fixed as Hall.
  rewrite forallb_forall in Hall.
  apply list_elem_of_In in H. specialize (Hall _ H).
  apply String.eqb_eq. exact Hall.
Qed.

(** C7, as stated, fails: removing the [.NS] inside [.N.NSS] glues a new
    [.NS] together, which a second pass removes. *)
Lemma normalize_not_idempotent :
  get_correct_symbol ".N.NSS" = ".NS"%string /\
  get_correct_symbol (get_correct_symbol ".N.NSS") = ""%string /\
  get_correct_symbol (get_correct_symbol ".N.NSS") <> get_correct_symbol ".N.NSS".
Proof.
  assert (H1 : get_correct_symbol ".N.NSS" = ".NS"%string) by (vm_compute; reflexivity).
  assert (H2 : get_correct_symbol ".NS" = ""%string) by (vm_compute; reflexivity).
  rewrite H1, H2. split; [reflexivity|]. split; [reflexivity | discriminate].
Qed.

(** C7, amended.  On every input whose stripped form contains no [.NS], the
    normaliser is idempotent: the stripped form is returned unchanged or
    mapped to a table value, and no table value is remapped or stripped
    further. *)
Theorem normalize_idempotent (x : string) :
  contains ".NS" (replace_NS x) = false ->
  get_correct_symbol (get_correct_symbol x) = get_correct_symbol x.
Proof.
  intros Hclean. unfold get_correct_symbol at 2 3.
  destruct (symbol_map !! replace_NS x) as [v|] eqn:Hlook.
  - eapply symbol_map_value_fixed, Hlook.
  - unfold get_correct_symbol. rewrite (replace_NS_clean _ Hclean), Hlook.
    reflexivity.
Qed.

Lemma normalize_idempotent_witness :
  get_correct_symbol (get_correct_symbol "TATMOT.NS") = get_correct_symbol "TATMOT.NS".
Proof.
  apply (normalize_idempotent "TATMOT.NS").
  vm_compute. reflexivity.
Defined.

(** The condition is exact: when the stripped form still contains [.NS], a
    second pass gives something else. *)
Lemma symbol_table_clean :
  forallb (fun kv : string * string =>
             negb (contains ".NS" kv.1) && negb (contains ".NS" kv.2)) symbol_table = true.
Proof. vm_compute. reflexivity. Qed.

Lemma symbol_map_entry_clean (k v : string) :
  symbol_map !! k = Some v -> contains ".NS" k = false /\ contains ".NS" v = false.
Proof.
  intros H. apply elem_of_list_to_map_2 in H.
  pose proof symbol_table_clean as Hall.
  rewrite forallb_forall in Hall.
  apply list_elem_of_In in H. specialize (Hall _ H).
  apply andb_true_iff in Hall as [Hk Hv].
  apply negb_true_iff in Hk, Hv. auto.
Qed.

Lemma replace_NS_length (n : nat) (s : string) :
  (String.length s <= n)%nat ->
  (String.length (replace_NS s) <= String.length s)%nat /\
  (contains ".NS" s = true -> (String.length (replace_NS s) < String.length s)%nat).
Proof.
  revert s. induction n as [|n IH]; intros s Hn.
  - destruct s; simpl in Hn; [|lia]. split; [reflexivity | discriminate].
  - destruct s as [|c1 s1]; [split; [reflexivity | discriminate]|].
    simpl in Hn.
    destruct (IH s1 ltac:(lia)) as [Hle1 Hlt1].
    destruct s1 as [|c2 [|c3 s3]].
    + split; [reflexivity|]. cbn. rewrite ?andb_false_r. discriminate.
    + split; [reflexivity|]. cbn. rewrite ?andb_false_r. discriminate.
    + change (replace_NS (String c1 (String c2 (String c3 s3))))
        with (if (Ascii.eqb c1 "." && Ascii.eqb c2 "N" && Ascii.eqb c3 "S")%bool
              then replace_NS s3
              else String c1 (replace_NS (String c2 (String c3 s3)))).
      cbn [contains]. rewrite prefix_NS_cons.
      destruct (Ascii.eqb c1 "." && Ascii.eqb c2 "N" && Ascii.eqb c3 "S")%bool.
      * simpl in Hn. destruct (IH s3 ltac:(lia)) as [Hle3 _].
        simpl String.length. split; [lia | intros _; lia].
      * simpl orb. simpl String.length in *. split; [lia|].
        intros Hc. specialize (Hlt1 Hc). lia.
Qed.

Lemma normalize_idempotent_only_if (x : string) :
  contains ".NS" (replace_NS x) = true ->
  get_correct_symbol (get_correct_symbol x) <> get_correct_symbol x.
Proof.
  intros Hdirty.
  assert (Hx : get_correct_symbol x = replace_NS x).
  { unfold get_correct_symbol.
    destruct (symbol_map !! replace_NS x) as [v|] eqn:Hlook; [|reflexivity].
    apply symbol_map_entry_clean in Hlook as [Hk _]. congruence. }
  rewrite Hx. unfold get_correct_symbol.
  destruct (symbol_map !! replace_NS (replace_NS x)) as [v|] eqn:Hlook.
  - apply symbol_map_entry_clean in Hlook as [_ Hv]. congruence.
  - intros Heq.
    destruct (replace_NS_length _ (replace_NS x) (le_n _)) as [_ Hlt].
    specialize (Hlt Hdirty). rewrite Heq in Hlt. lia.
Qed.

(** C10.  [get_correct_symbol] and the news fetcher's term cleaning remove
    [.NS] wherever it stands, not only at the end: [A.NSB] becomes [AB],
    where removing a trailing suffix would leave it as it is; in general an
    occurrence following any prefix free of [.NS] is removed. *)
Theorem replace_removes_inner_occurrences :
  get_correct_symbol "A.NSB" = "AB"%string /\
  search_term "A.NSB" = "AB"%string /\
  spec_strip_suffix "A.NSB" = "A.NSB"%string /\
  (forall a b : string,
     contains ".NS" a = false ->
     search_term (a +:+ ".NS" +:+ b) = a +:+ search_term b /\
     replace_NS (a +:+ ".NS" +:+ b) = a +:+ replace_NS b).
Proof.
  split; [vm_compute; reflexivity|].
  split; [vm_compute; reflexivity|].
  split; [vm_compute; reflexivity|].
  intros a b Ha. unfold search_term. split; apply replace_NS_app, Ha.
Qed.

(** ** fix_portfolio: what is rewritten *)

Lemma fix_symbols_idempotent {cells : Type} (df : list (string * cells)) :
  Forall (fun row => contains ".NS" (replace_NS row.1) = false) df ->
  fix_symbols (fix_symbols df) = fix_symbols df.
Proof.
  intros Hclean. unfold fix_symbols. rewrite map_map.
  apply map_ext_in. intros row Hrow. cbn [fst snd]. f_equal.
  rewrite List.Forall_forall in Hclean. specialize (Hclean row Hrow).
  unfold get_correct_symbol at 2 3.
  destruct (symbol_map !! replace_NS row.1) as [v|] eqn:Hlook.
  - eapply symbol_map_value_fixed, Hlook.
  - unfold get_correct_symbol. rewrite (replace_NS_clean _ Hclean), Hlook.
    reflexivity.
Qed.


Section CsvFacts.
Context {csv cells : Type}.
Variable read_csv : csv -> result (list (string * cells)).
Variable to_csv : list (string * cells) -> csv.

End CsvFacts.

(** A file that the round trip leaves alone, before and after the cleanup. *)
Example fix_portfolio_plain_notes :
  fix_portfolio note_read_csv note_to_csv
    [("TATMOT.NS"%string, Fin 10, "core holding"%string)]
  = [("TATAMOTORS"%string, Fin 10, "core holding"%string)].
Proof. vm_compute. reflexivity. Qed.

(** ** fetch_market_data *)

Lemma record_ticker_insert (cd : gmap string (list fl))
    (dicts : gmap string fl * gmap string fl) (t : string) :
  record_ticker cd dicts t
  = (<[t := (quote_or_default (ticker_quote cd t)).1]> dicts.1,
     <[t := (quote_or_default (ticker_quote cd t)).2]> dicts.2).
Proof.
  destruct dicts as [cp pc]. unfold record_ticker.
  destruct (ticker_quote cd t) as [[p c]|msg]; reflexivity.
Qed.

(** After the loop every ticker of the batch holds its own quote, whatever
    happened to the others. *)
Lemma record_loop_lookup (cd : gmap string (list fl)) (tickers : list string)
    (dicts : gmap string fl * gmap string fl) (t : string) :
  t ∈ tickers ->
  (fold_left (record_ticker cd) tickers dicts).1 !! t
    = Some (quote_or_default (ticker_quote cd t)).1 /\
  (fold_left (record_ticker cd) tickers dicts).2 !! t
    = Some (quote_or_default (ticker_quote cd t)).2.
Proof.
  induction tickers as [|x l IH] using rev_ind; intros Ht.
  - inversion Ht.
  - rewrite fold_left_app. simpl. rewrite record_ticker_insert. simpl.
    destruct (decide (x = t)) as [->|Hne].
    + rewrite !lookup_insert_eq. auto.
    + rewrite !lookup_insert_ne by exact Hne.
      apply IH. apply elem_of_app in Ht as [Ht|Ht]; [exact Ht|].
      apply list_elem_of_singleton in Ht. congruence.
Qed.

Lemma rev_two_last (pre : list fl) (u v : fl) :
  rev (pre ++ [u; v]) = v :: u :: rev pre.
Proof. rewrite rev_app_distr. reflexivity. Qed.

Lemma iloc_back_last (pre : list fl) (u v : fl) :
  iloc_back 1 (pre ++ [u; v]) = Ok v.
Proof. unfold iloc_back. rewrite rev_two_last. reflexivity. Qed.

Lemma iloc_back_second_last (pre : list fl) (u v : fl) :
  iloc_back 2 (pre ++ [u; v]) = Ok u.
Proof. unfold iloc_back. rewrite rev_two_last. reflexivity. Qed.

Lemma ticker_quote_missing_column (cd : gmap string (list fl)) (t : string) :
  cd !! t = None -> quote_or_default (ticker_quote cd t) = (Fin 0, Fin 0).
Proof. intros H. unfold ticker_quote, getitem. rewrite H. reflexivity. Qed.

Lemma ticker_quote_two (cd : gmap string (list fl)) (t : string)
    (s pre : list fl) (prev cur : fl) :
  cd !! t = Some s -> dropna s = pre ++ [prev; cur] ->
  ticker_quote cd t = Ok (cur, fmul (fdiv (fsub cur prev) prev) (Fin 100)).
Proof.
  intros Hs Hobs. unfold ticker_quote, getitem. rewrite Hs.
  unfold mbind, result_bind at 1. rewrite Hobs.
  assert (Hlen : (2 <=? length (pre ++ [prev; cur]))%nat = true).
  { apply Nat.leb_le. rewrite length_app. simpl. lia. }
  rewrite Hlen, iloc_back_last, iloc_back_second_last. reflexivity.
Qed.

Lemma ticker_quote_one (cd : gmap string (list fl)) (t : string)
    (s : list fl) (v : fl) :
  cd !! t = Some s -> dropna s = [v] -> ticker_quote cd t = Ok (v, Fin 0).
Proof.
  intros Hs Hobs. unfold ticker_quote, getitem. rewrite Hs. simpl.
  rewrite Hobs. reflexivity.
Qed.

Lemma ticker_quote_none (cd : gmap string (list fl)) (t : string) (s : list fl) :
  cd !! t = Some s -> dropna s = [] -> ticker_quote cd t = Ok (Fin 0, Fin 0).
Proof.
  intros Hs Hobs. unfold ticker_quote, getitem. rewrite Hs. simpl.
  rewrite Hobs. reflexivity.
Qed.

(** With its column present a ticker never takes the [except] branch. *)
Lemma ticker_quote_total (cd : gmap string (list fl)) (t : string) (s : list fl) :
  cd !! t = Some s -> exists p c, ticker_quote cd t = Ok (p, c).
Proof.
  intros Hs. destruct (dropna s) as [|x l] eqn:Hobs using rev_ind.
  - eauto using ticker_quote_none.
  - clear IHl. destruct l as [|y l'] using rev_ind.
    + eauto using ticker_quote_one.
    + rewrite <- app_assoc in Hobs. simpl in Hobs. eauto using ticker_quote_two.
Qed.

(** The quote of a ticker depends on its own column only. *)
Lemma ticker_quote_local (cd : gmap string (list fl)) (t : string) (s : list fl) :
  cd !! t = Some s -> ticker_quote cd t = ticker_quote {[t := s]} t.
Proof.
  intros Hs. unfold ticker_quote, getitem.
  rewrite Hs, lookup_singleton_eq. reflexivity.
Qed.

Lemma fetch_market_data_ok (yf_download : list string -> result (gmap string (list fl)))
    (df : list Position) (cd : gmap string (list fl)) (log : list event) :
  yf_download (all_tickers df) = Ok cd ->
  fetch_market_data yf_download df log
  = (Ok (fold_left (record_ticker cd) (all_tickers df) (∅, ∅)),
     log ++ [Enter FetchMarketData] ++ [YfDownload (all_tickers df)]).
Proof.
  intros Hd. unfold fetch_market_data, mbind, M_bind, emit, lift, mret, M_ret.
  rewrite Hd, <- app_assoc. reflexivity.
Qed.

Lemma dropna_all_nan (s : list fl) : all_nan s -> dropna s = [].
Proof.
  unfold all_nan. induction 1 as [|x s Hx _ IH]; [reflexivity|].
  subst x. exact IH.
Qed.

Lemma dropna_keeps (x : fl) (s : list fl) : x <> NaN -> dropna (x :: s) = x :: dropna s.
Proof. intros Hx. destruct x; try reflexivity. contradiction. Qed.

Lemma dropna_last_two (earlier gap trailing : list fl) (prev cur : fl) :
  prev <> NaN -> cur <> NaN -> all_nan gap -> all_nan trailing ->
  dropna (earlier ++ prev :: gap ++ cur :: trailing) = dropna earlier ++ [prev; cur].
Proof.
  intros Hprev Hcur Hgap Htrail. unfold dropna at 1.
  rewrite List.filter_app. fold (dropna earlier). fold (dropna (prev :: gap ++ cur :: trailing)).
  rewrite (dropna_keeps _ _ Hprev). unfold dropna at 2.
  rewrite List.filter_app. fold (dropna gap). fold (dropna (cur :: trailing)).
  rewrite (dropna_all_nan _ Hgap), (dropna_keeps _ _ Hcur), (dropna_all_nan _ Htrail).
  reflexivity.
Qed.

Lemma dropna_single (leading trailing : list fl) (v : fl) :
  v <> NaN -> all_nan leading -> all_nan trailing ->
  dropna (leading ++ v :: trailing) = [v].
Proof.
  intros Hv Hlead Htrail. unfold dropna at 1.
  rewrite List.filter_app. fold (dropna leading). fold (dropna (v :: trailing)).
  rewrite (dropna_all_nan _ Hlead), (dropna_keeps _ _ Hv), (dropna_all_nan _ Htrail).
  reflexivity.
Qed.

(** C3.  Once the price service has answered, every ticker of the batch that
    has a closing-price column is quoted from the observations of that
    column that are not missing.  If the column ends with an observation,
    missing ones, another observation and missing ones again, the price is
    the later observation and the change is (last - previous) / previous *
    100 computed on the cells, whatever stands earlier in the column; if it
    holds one observation among missing ones, the price is that observation
    and the change 0; if it holds missing ones only, both are 0. *)
Theorem quote_from_non_missing_observations
    (yf_download : list string -> result (gmap string (list fl)))
    (df : list Position) (close_data : gmap string (list fl))
    (log : list event) (t : string) (series : list fl) :
  yf_download (all_tickers df) = Ok close_data ->
  t ∈ all_tickers df ->
  close_data !! t = Some series ->
  exists (cp pc : gmap string fl) (log' : list event),
    fetch_market_data yf_download df log = (Ok (cp, pc), log') /\
    (forall (earlier gap trailing : list fl) (prev cur : fl),
       series = earlier ++ prev :: gap ++ cur :: trailing ->
       prev <> NaN -> cur <> NaN -> all_nan gap -> all_nan trailing ->
       cp !! t = Some cur /\
       pc !! t = Some (fmul (fdiv (fsub cur prev) prev) (Fin 100))) /\
    (forall (leading trailing : list fl) (v : fl),
       series = leading ++ v :: trailing ->
       v <> NaN -> all_nan leading -> all_nan trailing ->
       cp !! t = Some v /\ pc !! t = Some (Fin 0)) /\
    (all_nan series -> cp !! t = Some (Fin 0) /\ pc !! t = Some (Fin 0)).
Proof.
  intros Hd Ht Hs.
  destruct (fold_left (record_ticker close_data) (all_tickers df) (∅, ∅))
    as [cp pc] eqn:Hloop.
  exists cp, pc, (log ++ [Enter FetchMarketData] ++ [YfDownload (all_tickers df)]).
  split; [rewrite (fetch_market_data_ok _ _ _ _ Hd), Hloop; reflexivity|].
  pose proof (record_loop_lookup close_data _ (∅, ∅) t Ht) as [Hp Hc].
  rewrite Hloop in Hp, Hc. simpl in Hp, Hc.
  split; [|split].
  - intros earlier gap trailing prev cur Hseries Hprev Hcur Hgap Htrail.
    assert (Hobs : dropna series = dropna earlier ++ [prev; cur])
      by (rewrite Hseries; apply dropna_last_two; assumption).
    rewrite (ticker_quote_two _ _ _ _ _ _ Hs Hobs) in Hp, Hc. auto.
  - intros leading trailing v Hseries Hv Hlead Htrail.
    assert (Hobs : dropna series = [v])
      by (rewrite Hseries; apply dropna_single; assumption).
    rewrite (ticker_quote_one _ _ _ _ Hs Hobs) in Hp, Hc. auto.
  - intros Hall. pose proof (dropna_all_nan _ Hall) as Hobs.
    rewrite (ticker_quote_none _ _ _ Hs Hobs) in Hp, Hc. auto.
Qed.

Lemma quote_from_non_missing_observations_witness :
  exists (cp pc : gmap string fl) (log' : list event),
    fetch_market_data gappy_download [aaa_position] [] = (Ok (cp, pc), log') /\
    cp !! "AAA.NS" = Some (Fin 110) /\
    pc !! "AAA.NS" = Some (fmul (fdiv (fsub (Fin 110) (Fin 100)) (Fin 100)) (Fin 100)) /\
    fl_eqb (fmul (fdiv (fsub (Fin 110) (Fin 100)) (Fin 100)) (Fin 100)) (Fin 10) = true.
Proof.
  destruct (quote_from_non_missing_observations gappy_download [aaa_position]
              gappy_close [] "AAA.NS" [NaN; Fin 100; NaN; Fin 110])
    as (cp & pc & log' & Hrun & Htwo & _).
  - reflexivity.
  - apply list_elem_of_here.
  - vm_compute. reflexivity.
  - exists cp, pc, log'. split; [exact Hrun|].
    destruct (Htwo [NaN] [NaN] [] (Fin 100) (Fin 110)) as [Hprice Hchange].
    + reflexivity.
    + discriminate.
    + discriminate.
    + repeat constructor.
    + constructor.
    + split; [exact Hprice|]. split; [exact Hchange|]. vm_compute. reflexivity.
Defined.

(** The specification's example: the series [nan, 100, nan, 110] is quoted
    at 110, up 10 percent. *)
Example gappy_series_quote :
  exists p c, ticker_quote gappy_close "AAA.NS" = Ok (p, c) /\ fl_eq p (Fin 110) /\ fl_eq c (Fin 10).
Proof.
  eexists _, _. split.
  - eapply (ticker_quote_two _ _ _ [] (Fin 100) (Fin 110)).
    + apply lookup_singleton_eq.
    + reflexivity.
  - split; vm_compute; reflexivity.
Qed.

(** C5.  Once the price service has answered, [fetch_market_data] returns
    normally for every batch; a ticker whose column cannot be read (the
    failure caught in the loop) is recorded with price 0 and change 0, and
    every ticker whose column is there is recorded with the quote it would
    get if it were alone in the frame, so no failure of another ticker
    touches it. *)
Theorem per_ticker_failure_isolated
    (yf_download : list string -> result (gmap string (list fl)))
    (df : list Position) (close_data : gmap string (list fl)) (log : list event) :
  yf_download (all_tickers df) = Ok close_data ->
  exists (cp pc : gmap string fl) (log' : list event),
    fetch_market_data yf_download df log = (Ok (cp, pc), log') /\
    forall t, t ∈ all_tickers df ->
      (close_data !! t = None ->
       cp !! t = Some (Fin 0) /\ pc !! t = Some (Fin 0)) /\
      (forall s, close_data !! t = Some s ->
         exists p c, ticker_quote {[t := s]} t = Ok (p, c) /\
                     cp !! t = Some p /\ pc !! t = Some c).
Proof.
  intros Hd.
  destruct (fold_left (record_ticker close_data) (all_tickers df) (∅, ∅))
    as [cp pc] eqn:Hloop.
  exists cp, pc, (log ++ [Enter FetchMarketData] ++ [YfDownload (all_tickers df)]).
  split; [rewrite (fetch_market_data_ok _ _ _ _ Hd), Hloop; reflexivity|].
  intros t Ht.
  pose proof (record_loop_lookup close_data _ (∅, ∅) t Ht) as [Hp Hc].
  rewrite Hloop in Hp, Hc. simpl in Hp, Hc. split.
  - intros Hnone. rewrite (ticker_quote_missing_column _ _ Hnone) in Hp, Hc. auto.
  - intros s Hs. destruct (ticker_quote_total _ _ _ Hs) as (p & c & Hq).
    exists p, c. rewrite <- (ticker_quote_local _ _ _ Hs).
    rewrite Hq in Hp, Hc. auto.
Qed.

Lemma per_ticker_failure_isolated_witness :
  exists (cp pc : gmap string fl) (log' : list event),
    fetch_market_data gappy_download [aaa_position] [] = (Ok (cp, pc), log') /\
    forall t, t ∈ all_tickers [aaa_position] ->
      (gappy_close !! t = None ->
       cp !! t = Some (Fin 0) /\ pc !! t = Some (Fin 0)) /\
      (forall s, gappy_close !! t = Some s ->
         exists p c, ticker_quote {[t := s]} t = Ok (p, c) /\
                     cp !! t = Some p /\ pc !! t = Some c).
Proof.
  apply (per_ticker_failure_isolated gappy_download [aaa_position] gappy_close []).
  reflexivity.
Defined.

(** ** Ranking *)

Section RankingFacts.
Context {A : Type}.
Variable outranks : A -> A -> bool.
Hypothesis outranks_asym :
  forall a b, outranks a b = true -> outranks b a = false.
Hypothesis outranks_negtrans :
  forall a b c, outranks a c = true -> outranks a b = true \/ outranks b c = true.

Lemma insert_row_perm (x : A) (l : list A) :
  Permutation (insert_row outranks x l) (x :: l).
Proof.
  induction l as [|y l IH]; simpl; [reflexivity|].
  destruct (outranks y x).
  - rewrite IH. apply perm_swap.
  - reflexivity.
Qed.

Lemma rank_rows_perm (l : list A) : Permutation (rank_rows outranks l) l.
Proof.
  induction l as [|x l IH]; simpl; [reflexivity|].
  rewrite insert_row_perm. apply perm_skip, IH.
Qed.

Lemma rank_rows_length (l : list A) : length (rank_rows outranks l) = length l.
Proof. apply Permutation_length, rank_rows_perm. Qed.

Lemma insert_row_sorted (x : A) (l : list A) :
  StronglySorted (in_order outranks) l ->
  StronglySorted (in_order outranks) (insert_row outranks x l).
Proof.
  induction l as [|y l IH]; intros Hs; simpl.
  - constructor; constructor.
  - apply StronglySorted_inv in Hs as [Hl Hy].
    destruct (outranks y x) eqn:Hyx.
    + constructor; [apply IH, Hl|].
      rewrite List.Forall_forall in *. intros z Hz.
      apply (Permutation_in _ (insert_row_perm x l)) in Hz as [<-|Hz].
      * apply outranks_asym, Hyx.
      * apply Hy, Hz.
    + constructor; [constructor; assumption|].
      constructor; [exact Hyx|].
      rewrite List.Forall_forall in *. intros z Hz. unfold in_order.
      destruct (outranks z x) eqn:Hzx; [|reflexivity].
      destruct (outranks_negtrans z y x Hzx) as [Hzy|Hyx'].
      * specialize (Hy z Hz). unfold in_order in Hy. congruence.
      * congruence.
Qed.

Lemma rank_rows_sorted (l : list A) :
  StronglySorted (in_order outranks) (rank_rows outranks l).
Proof.
  induction l as [|x l IH]; simpl; [constructor|].
  apply insert_row_sorted, IH.
Qed.

(** Rows of one class, no one of which outranks another, keep the order
    they had in the frame. *)
Variable same_key : A -> bool.
Hypothesis same_key_tied :
  forall a b, same_key a = true -> same_key b = true -> outranks a b = false.

Lemma insert_row_stable (x : A) (l : list A) :
  List.filter same_key (insert_row outranks x l) = List.filter same_key (x :: l).
Proof.
  induction l as [|y l IH]; [reflexivity|].
  simpl insert_row. destruct (outranks y x) eqn:Hyx; [|reflexivity].
  simpl List.filter in *. rewrite IH.
  destruct (same_key y) eqn:Ky, (same_key x) eqn:Kx; try reflexivity.
  rewrite (same_key_tied y x Ky Kx) in Hyx. discriminate.
Qed.

Lemma rank_rows_stable (l : list A) :
  List.filter same_key (rank_rows outranks l) = List.filter same_key l.
Proof.
  induction l as [|x l IH]; [reflexivity|].
  simpl rank_rows. rewrite insert_row_stable. simpl. rewrite IH. reflexivity.
Qed.
End RankingFacts.

Lemma fltb_asym (a b : fl) : fltb a b = true -> fltb b a = false.
Proof.
  destruct a as [x| | |], b as [y| | |]; simpl; try congruence.
  rewrite Qltb_lt, Qltb_ge. lra.
Qed.

Lemma fltb_negtrans (a b c : fl) :
  b <> NaN -> fltb a c = true -> fltb a b = true \/ fltb b c = true.
Proof.
  destruct a as [x| | |], b as [y| | |], c as [z| | |]; simpl;
    try congruence; auto.
  rewrite !Qltb_lt. intros _ H. destruct (Qlt_le_dec x y); [auto|right; lra].
Qed.

Lemma outranks_desc_asym (a b : fl) :
  outranks_desc a b = true -> outranks_desc b a = false.
Proof.
  destruct a as [x| | |], b as [y| | |]; simpl; try congruence;
    try (apply (fltb_asym (Fin _) (Fin _))).
Qed.

Lemma outranks_desc_negtrans (a b c : fl) :
  outranks_desc a c = true -> outranks_desc a b = true \/ outranks_desc b c = true.
Proof.
  destruct a as [x| | |], b as [y| | |], c as [z| | |]; simpl;
    try congruence; auto.
  intros H. destruct (fltb_negtrans (Fin z) (Fin y) (Fin x)); auto; congruence.
Qed.

Lemma outranks_asc_asym (a b : fl) :
  outranks_asc a b = true -> outranks_asc b a = false.
Proof.
  destruct a as [x| | |], b as [y| | |]; simpl; try congruence;
    try (apply (fltb_asym (Fin _) (Fin _))).
Qed.

Lemma outranks_asc_negtrans (a b c : fl) :
  outranks_asc a c = true -> outranks_asc a b = true \/ outranks_asc b c = true.
Proof.
  destruct a as [x| | |], b as [y| | |], c as [z| | |]; simpl;
    try congruence; auto.
  intros H. destruct (fltb_negtrans (Fin x) (Fin y) (Fin z)); auto; congruence.
Qed.

Lemma fl_eqb_tied_desc (k a b : fl) :
  fl_eqb a k = true -> fl_eqb b k = true -> outranks_desc a b = false.
Proof.
  rewrite !fl_eqb_eq.
  destruct k as [z| | |], a as [x| | |], b as [y| | |]; simpl; try tauto.
  intros Hx Hy. apply Qltb_ge. lra.
Qed.

Lemma fl_eqb_tied_asc (k a b : fl) :
  fl_eqb a k = true -> fl_eqb b k = true -> outranks_asc a b = false.
Proof.
  rewrite !fl_eqb_eq.
  destruct k as [z| | |], a as [x| | |], b as [y| | |]; simpl; try tauto.
  intros Hx Hy. apply Qltb_ge. lra.
Qed.

Lemma filter_firstn_prefix {A : Type} (P : A -> bool) (n : nat) (l : list A) :
  List.filter P (firstn n l) `prefix_of` List.filter P l.
Proof.
  exists (List.filter P (skipn n l)).
  rewrite <- List.filter_app, firstn_skipn. reflexivity.
Qed.

(** Between numbers, "not outranked" is the usual order. *)
Lemma outranks_desc_fin (a b : Q) : outranks_desc (Fin b) (Fin a) = false <-> (b <= a)%Q.
Proof. simpl. apply Qltb_ge. Qed.

Lemma outranks_asc_fin (a b : Q) : outranks_asc (Fin b) (Fin a) = false <-> (a <= b)%Q.
Proof. simpl. apply Qltb_ge. Qed.

(** The comparators against the order of the values. *)
Lemma outranks_desc_order (a b : fl) :
  outranks_desc b a = false -> b = NaN \/ fl_le b a.
Proof.
  destruct a as [x| | |], b as [y| | |]; simpl; auto; try discriminate.
  intros H. right. apply Qltb_ge. exact H.
Qed.

Lemma outranks_asc_order (a b : fl) :
  outranks_asc b a = false -> b = NaN \/ fl_le a b.
Proof.
  destruct a as [x| | |], b as [y| | |]; simpl; auto; try discriminate.
  intros H. right. apply Qltb_ge. exact H.
Qed.

Lemma StronglySorted_weaken {A : Type} (R R' : A -> A -> Prop) (l : list A) :
  (forall a b, R a b -> R' a b) -> StronglySorted R l -> StronglySorted R' l.
Proof.
  intros Himpl. induction 1 as [|x l Hl IH Hx]; constructor; [exact IH|].
  eapply List.Forall_impl; [|exact Hx]. intros b. apply Himpl.
Qed.

Lemma ranked_descending (rows : list Row) :
  StronglySorted
    (fun a b => ChangePct b = NaN \/ fl_le (ChangePct b) (ChangePct a))
    (rank_rows (fun a b => outranks_desc (ChangePct a) (ChangePct b)) rows).
Proof.
  apply (StronglySorted_weaken
           (in_order (fun a b => outranks_desc (ChangePct a) (ChangePct b)))).
  - intros a b. apply outranks_desc_order.
  - apply rank_rows_sorted.
    + intros a b. apply outranks_desc_asym.
    + intros a b c. apply outranks_desc_negtrans.
Qed.

Lemma ranked_ascending (rows : list Row) :
  StronglySorted
    (fun a b => ChangePct b = NaN \/ fl_le (ChangePct a) (ChangePct b))
    (rank_rows (fun a b => outranks_asc (ChangePct a) (ChangePct b)) rows).
Proof.
  apply (StronglySorted_weaken
           (in_order (fun a b => outranks_asc (ChangePct a) (ChangePct b)))).
  - intros a b. apply outranks_asc_order.
  - apply rank_rows_sorted.
    + intros a b. apply outranks_asc_asym.
    + intros a b c. apply outranks_asc_negtrans.
Qed.

(** C4.  [top_gainers] is the first three rows (all of them when there are
    fewer) of the frame sorted by [ChangePct] from the highest value to the
    lowest, and [top_losers] the first three of the frame sorted from the
    lowest value to the highest, rows with a missing change standing last
    in both: each ordering is a rearrangement of the frame's rows in which
    every row has a change at least as high (resp. at most as high) as all
    the rows after it, and in which the rows of any one percent change
    stand in the order they had in the input, so that among equal changes
    the selection keeps the earliest rows, in input order. *)
Theorem top_movers_stable_top3 (df : list Position) (cp pc : gmap string fl) :
  let perf := calculate_performance df cp pc in
  (exists ranked : list Row,
     top_gainers perf = map mover_columns (firstn 3 ranked) /\
     Permutation ranked (full_df perf) /\
     StronglySorted
       (fun a b => ChangePct b = NaN \/ fl_le (ChangePct b) (ChangePct a)) ranked /\
     forall k : fl,
       List.filter (fun r => fl_eqb (ChangePct r) k) ranked
       = List.filter (fun r => fl_eqb (ChangePct r) k) (full_df perf) /\
       List.filter (fun r => fl_eqb (ChangePct r) k) (firstn 3 ranked)
         `prefix_of` List.filter (fun r => fl_eqb (ChangePct r) k) (full_df perf)) /\
  (exists ranked : list Row,
     top_losers perf = map mover_columns (firstn 3 ranked) /\
     Permutation ranked (full_df perf) /\
     StronglySorted
       (fun a b => ChangePct b = NaN \/ fl_le (ChangePct a) (ChangePct b)) ranked /\
     forall k : fl,
       List.filter (fun r => fl_eqb (ChangePct r) k) ranked
       = List.filter (fun r => fl_eqb (ChangePct r) k) (full_df perf) /\
       List.filter (fun r => fl_eqb (ChangePct r) k) (firstn 3 ranked)
         `prefix_of` List.filter (fun r => fl_eqb (ChangePct r) k) (full_df perf)) /\
  length (top_gainers perf) = Nat.min 3 (length df) /\
  length (top_losers perf) = Nat.min 3 (length df).
Proof.
  intros perf. split; [|split; [|split]].
  - exists (rank_rows (fun a b => outranks_desc (ChangePct a) (ChangePct b)) (full_df perf)).
    split; [reflexivity|]. split; [apply rank_rows_perm|]. split.
    + apply ranked_descending.
    + intros k.
      assert (Hstable :
        List.filter (fun r => fl_eqb (ChangePct r) k)
          (rank_rows (fun a b => outranks_desc (ChangePct a) (ChangePct b)) (full_df perf))
        = List.filter (fun r => fl_eqb (ChangePct r) k) (full_df perf)).
      { apply rank_rows_stable. intros a b. apply fl_eqb_tied_desc. }
      split; [exact Hstable|]. rewrite <- Hstable. apply filter_firstn_prefix.
  - exists (rank_rows (fun a b => outranks_asc (ChangePct a) (ChangePct b)) (full_df perf)).
    split; [reflexivity|]. split; [apply rank_rows_perm|]. split.
    + apply ranked_ascending.
    + intros k.
      assert (Hstable :
        List.filter (fun r => fl_eqb (ChangePct r) k)
          (rank_rows (fun a b => outranks_asc (ChangePct a) (ChangePct b)) (full_df perf))
        = List.filter (fun r => fl_eqb (ChangePct r) k) (full_df perf)).
      { apply rank_rows_stable. intros a b. apply fl_eqb_tied_asc. }
      split; [exact Hstable|]. rewrite <- Hstable. apply filter_firstn_prefix.
  - unfold perf, calculate_performance, nlargest; simpl.
    rewrite length_map, length_firstn, rank_rows_length, length_map. reflexivity.
  - unfold perf, calculate_performance, nsmallest; simpl.
    rewrite length_map, length_firstn, rank_rows_length, length_map. reflexivity.
Qed.

Example nlargest_ties :
  map (fun r => Symbol (position r)) (nlargest 3 ChangePct tie_rows) = ["B"; "D"; "A"]%string /\
  map (fun r => Symbol (position r)) (nsmallest 3 ChangePct tie_rows) = ["A"; "C"; "E"]%string.
Proof. vm_compute. auto. Qed.

(** The specification's end-to-end scenario: ten shares of AAA, closes 100
    then 110, as far as price, change and value go. *)
Example end_to_end_scenario :
  let dicts := fold_left (record_ticker two_day_close) (all_tickers [aaa_position]) (∅, ∅) in
  let perf := calculate_performance [aaa_position] dicts.1 dicts.2 in
  forallb (fun r => fl_eqb (CurrentPrice r) (Fin 110) && fl_eqb (ChangePct r) (Fin 10)
                    && fl_eqb (CurrentValue r) (Fin 1100))
          (full_df perf) = true /\
  length (full_df perf) = 1%nat /\
  fl_eqb (total_value perf) (Fin 1100) = true.
Proof. vm_compute. auto. Qed.

(** ** The orchestrator *)

Section Orchestrator.
Variable portfolio_csv : option (list Position).
Variable yf_download : list string -> result (gmap string (list fl)).
Variable urllib_quote : string -> string.
Variable feedparser_parse : string -> result (list (string * string)).
Variable render_prompt :
  Performance -> (fl * fl) * (fl * fl) -> gmap string string -> string.
Variable generate_content : string -> result string.
Variable requests_post : string -> result nat.

(** C8.  On a Saturday (5) or a Sunday (6), whatever the portfolio file and
    the services are, [run_briefing] ends in [Skip] and its log of events
    is empty: it entered no stage, read no file and sent no request. *)
Theorem weekend_guard_skips (today : nat) :
  today = 5%nat \/ today = 6%nat ->
  run_briefing portfolio_csv yf_download urllib_quote feedparser_parse
    render_prompt generate_content requests_post today [] = (Ok Skip, []).
Proof. intros [-> | ->]; reflexivity. Qed.
End Orchestrator.

Lemma weekend_guard_skips_witness :
  run_briefing (Some [raw_position]) demo_download (fun s => s) demo_feed
    demo_render demo_generate demo_post 6 [] = (Ok Skip, []).
Proof.
  apply (weekend_guard_skips (Some [raw_position]) demo_download (fun s => s)
           demo_feed demo_render demo_generate demo_post 6).
  right. reflexivity.
Defined.

(** A Monday run on sample services, and one whose portfolio file cannot be
    read: the stages entered and the requests sent, in order. *)
Example monday_run :
  run_briefing (Some [raw_position]) demo_download (fun s => s) demo_feed
    demo_render demo_generate demo_post 0 []
  = (Ok Success,
     [Enter LoadPortfolio; ReadCsv; Enter FetchMarketData;
      YfDownload ["AAA.NS"; "^NSEI"; "^BSESN"];
      Enter CalculatePerformance; Enter FetchNews;
      FeedParse "https://news.google.com/rss/search?q=AAA India Business&hl=en-IN&gl=IN&ceid=IN:en";
      FeedParse "https://news.google.com/rss/search?q=NIFTY 50 India Business&hl=en-IN&gl=IN&ceid=IN:en";
      Enter GenerateAnalysis; GeminiGenerate "prompt";
      Enter SendTelegramReport; TelegramPost "report"]).
Proof. vm_compute. reflexivity. Qed.

Example monday_run_without_portfolio :
  run_briefing None demo_download (fun s => s) demo_feed
    demo_render demo_generate demo_post 0 []
  = (Ok (Failed "Failed to load portfolio CSV"),
     [Enter LoadPortfolio; ReadCsv; Enter SendErrorAlert;
      TelegramPost "Error fetching India Data: Failed to load portfolio CSV"]).
Proof. vm_compute. reflexivity. Qed.

(** * Further properties of the two scripts *)

(** ** load_portfolio *)

Lemma endswith_self (suffix : string) : endswith suffix suffix = true.
Proof. destruct suffix; simpl; [reflexivity|]. rewrite Ascii.eqb_refl, String.eqb_refl. reflexivity. Qed.

Lemma endswith_app (suffix s : string) : endswith suffix (s +:+ suffix) = true.
Proof.
  induction s as [|c s IH]; [apply endswith_self|].
  change (String c s +:+ suffix) with (String c (s +:+ suffix)).
  cbn [endswith]. rewrite IH. apply orb_true_r.
Qed.

Lemma startswith_self (s : string) : startswith s s = true.
Proof. induction s as [|c s IH]; simpl; [reflexivity|]. rewrite Ascii.eqb_refl. exact IH. Qed.

Lemma clean_not_endswith (s : string) :
  contains ".NS" s = false -> endswith ".NS" s = false.
Proof.
  induction s as [|c s IH]; intros H; [reflexivity|].
  cbn [contains] in H. apply orb_false_iff in H as [Hpre Hrest].
  cbn [endswith]. rewrite (IH Hrest), orb_false_r.
  destruct (String.eqb (String c s) ".NS") eqn:E; [|reflexivity].
  apply String.eqb_eq in E. rewrite E in Hpre. discriminate.
Qed.

Lemma append_empty_r (s : string) : s +:+ "" = s.
Proof.
  induction s as [|c s IH]; [reflexivity|].
  change (String c s +:+ "") with (String c (s +:+ "")). rewrite IH. reflexivity.
Qed.

(** X1.  The table [load_portfolio] hands on has as many rows as the file,
    with the quantities and other fields untouched, and every symbol in it
    ends with [.NS]: a symbol that already did is kept, any other gets the
    suffix appended. *)
Theorem load_portfolio_suffixes (df : list Position) :
  exists df' : list Position,
    load_portfolio (Some df) = Some df' /\
    length df' = length df /\
    forall (i : nat) (row : Position),
      df !! i = Some row ->
      exists row' : Position,
        df' !! i = Some row' /\
        endswith ".NS" (Symbol row') = true /\
        Quantity row' = Quantity row /\
        Extra row' = Extra row /\
        (endswith ".NS" (Symbol row) = true -> Symbol row' = Symbol row) /\
        (endswith ".NS" (Symbol row) = false -> Symbol row' = Symbol row +:+ ".NS").
Proof.
  eexists. split; [reflexivity|]. split; [apply length_map|].
  intros i row Hrow. eexists. split.
  - rewrite list_lookup_fmap, Hrow. reflexivity.
  - simpl. destruct (endswith ".NS" (Symbol row)) eqn:E; simpl.
    + repeat split; auto. discriminate.
    + repeat split; auto; [apply endswith_app | discriminate].
Qed.

(** X2.  Loading is idempotent: a table that went through [load_portfolio]
    is left as it is by a second pass, and an unreadable file stays
    unreadable. *)
Theorem load_portfolio_idempotent (csv : option (list Position)) :
  load_portfolio (load_portfolio csv) = load_portfolio csv.
Proof.
  destruct csv as [df|]; [|reflexivity]. simpl. f_equal.
  rewrite map_map. apply map_ext. intros row. simpl.
  destruct (endswith ".NS" (Symbol row)) eqn:E; simpl.
  - rewrite E. reflexivity.
  - rewrite endswith_app. reflexivity.
Qed.

(** X3.  The suffix added on loading is the one the news fetcher removes:
    for a position whose symbol in the file contains no [.NS], the search
    term built from the loaded symbol is the symbol of the file. *)
Theorem search_term_of_loaded_symbol (df df' : list Position) (i : nat)
    (row row' : Position) :
  load_portfolio (Some df) = Some df' ->
  df !! i = Some row ->
  df' !! i = Some row' ->
  contains ".NS" (Symbol row) = false ->
  search_term (Symbol row') = Symbol row.
Proof.
  intros Hload Hrow Hrow' Hclean. simpl in Hload. injection Hload as <-.
  rewrite list_lookup_fmap, Hrow in Hrow'. simpl in Hrow'. injection Hrow' as <-.
  simpl. rewrite (clean_not_endswith _ Hclean). simpl. unfold search_term.
  pose proof (replace_NS_app (Symbol row) "" Hclean) as H.
  simpl in H. rewrite !append_empty_r in H. exact H.
Qed.

Lemma search_term_of_loaded_symbol_witness :
  search_term "AAA.NS" = "AAA"%string.
Proof.
  apply (search_term_of_loaded_symbol [raw_position] [aaa_position] 0
           raw_position aaa_position); reflexivity.
Defined.

(** ** fix_portfolio and the table *)

Lemma symbol_table_keys_nodup : NoDup (symbol_table.*1).
Proof. apply (bool_decide_unpack _). vm_compute. exact I. Qed.

(** X4.  Every entry of the table is effective, with or without the market
    suffix on the input: for each pair (k, v) of [symbol_map],
    [get_correct_symbol] sends both [k] and [k.NS] to [v]; no key is
    shadowed by another. *)
Theorem symbol_map_entries_effective (k v : string) :
  (k, v) ∈ symbol_table ->
  get_correct_symbol k = v /\ get_correct_symbol (k +:+ ".NS") = v.
Proof.
  intros Hin.
  assert (Hlook : symbol_map !! k = Some v).
  { apply elem_of_list_to_map_1; [apply symbol_table_keys_nodup | exact Hin]. }
  destruct (symbol_map_entry_clean _ _ Hlook) as [Hk _].
  unfold get_correct_symbol. split.
  - rewrite (replace_NS_clean _ Hk), Hlook. reflexivity.
  - pose proof (replace_NS_app k "" Hk) as H. simpl in H.
    rewrite !append_empty_r in H. rewrite H, Hlook. reflexivity.
Qed.

Lemma symbol_map_entries_effective_witness :
  get_correct_symbol "TATMOT" = "TATAMOTORS"%string /\
  get_correct_symbol "TATMOT.NS" = "TATAMOTORS"%string.
Proof.
  apply (symbol_map_entries_effective "TATMOT" "TATAMOTORS").
  do 3 apply list_elem_of_further. apply list_elem_of_here.
Defined.

Section CsvRoundTrip.
Context {csv cells : Type}.
Variable read_csv : csv -> result (list (string * cells)).
Variable to_csv : list (string * cells) -> csv.

(** X5.  On a file whose symbols, once stripped, contain no [.NS], and whose
    cleaned frame comes back from the file as it was written, the cleanup
    is idempotent: running [fix_portfolio] on its own output changes
    nothing. *)
Theorem fix_portfolio_idempotent (file : csv) (df : list (string * cells)) :
  read_csv file = Ok df ->
  Forall (fun row => contains ".NS" (replace_NS row.1) = false) df ->
  read_csv (to_csv (fix_symbols df)) = Ok (fix_symbols df) ->
  fix_portfolio read_csv to_csv (fix_portfolio read_csv to_csv file)
  = fix_portfolio read_csv to_csv file.
Proof.
  intros Hread Hclean Hround. unfold fix_portfolio.
  rewrite Hread, Hround, (fix_symbols_idempotent _ Hclean). reflexivity.
Qed.
End CsvRoundTrip.

Lemma fix_portfolio_idempotent_witness :
  fix_portfolio note_read_csv note_to_csv
    (fix_portfolio note_read_csv note_to_csv
       [("TATMOT.NS"%string, Fin 10, "core holding"%string)])
  = fix_portfolio note_read_csv note_to_csv
      [("TATMOT.NS"%string, Fin 10, "core holding"%string)].
Proof.
  apply (fix_portfolio_idempotent note_read_csv note_to_csv
           [("TATMOT.NS"%string, Fin 10, "core holding"%string)]
           [("TATMOT.NS"%string, (Fin 10, Some "core holding"%string))]).
  - vm_compute. reflexivity.
  - constructor; [vm_compute; reflexivity | constructor].
  - vm_compute. reflexivity.
Defined.

(** ** fetch_market_data and the pipeline *)

Lemma record_loop_lookup_other (cd : gmap string (list fl)) (tickers : list string)
    (dicts : gmap string fl * gmap string fl) (t : string) :
  t ∉ tickers ->
  (fold_left (record_ticker cd) tickers dicts).1 !! t = dicts.1 !! t /\
  (fold_left (record_ticker cd) tickers dicts).2 !! t = dicts.2 !! t.
Proof.
  induction tickers as [|x l IH] using rev_ind; intros Ht; [auto|].
  rewrite fold_left_app. simpl. rewrite record_ticker_insert. simpl.
  rewrite not_elem_of_app, not_elem_of_cons in Ht. destruct Ht as [Hl [Hx _]].
  rewrite !lookup_insert_ne by congruence. apply IH, Hl.
Qed.

Lemma dropna_not_nan (s : list fl) (v : fl) : In v (dropna s) -> v <> NaN.
Proof.
  unfold dropna. rewrite filter_In. intros [_ Hv] ->. discriminate.
Qed.

Lemma quote_price_not_nan (cd : gmap string (list fl)) (t : string) :
  (quote_or_default (ticker_quote cd t)).1 <> NaN.
Proof.
  destruct (cd !! t) as [s|] eqn:Hs.
  - destruct (dropna s) as [|x l] eqn:Hobs using rev_ind.
    + rewrite (ticker_quote_none _ _ _ Hs Hobs). discriminate.
    + clear IHl. destruct l as [|y l'] using rev_ind.
      * rewrite (ticker_quote_one _ _ _ _ Hs Hobs). simpl.
        apply (dropna_not_nan s). rewrite Hobs. left. reflexivity.
      * rewrite <- app_assoc in Hobs. simpl in Hobs.
        rewrite (ticker_quote_two _ _ _ _ _ _ Hs Hobs). simpl.
        apply (dropna_not_nan s). rewrite Hobs. apply in_or_app. right.
        right. left. reflexivity.
  - rewrite (ticker_quote_missing_column _ _ Hs). discriminate.
Qed.

Lemma position_symbol_in_tickers (df : list Position) (p : Position) :
  p ∈ df -> Symbol p ∈ all_tickers df.
Proof.
  intros Hp. unfold all_tickers. apply elem_of_app. left.
  apply list_elem_of_fmap. eauto.
Qed.

(** X7.  When the price service has answered, the two dicts returned by
    [fetch_market_data] have an entry for exactly the tickers of the batch:
    every symbol of the portfolio and the two indices, and nothing else. *)
Theorem fetch_market_data_keys
    (yf_download : list string -> result (gmap string (list fl)))
    (df : list Position) (close_data : gmap string (list fl)) (log : list event) :
  yf_download (all_tickers df) = Ok close_data ->
  exists (cp pc : gmap string fl) (log' : list event),
    fetch_market_data yf_download df log = (Ok (cp, pc), log') /\
    (forall t, is_Some (cp !! t) <-> t ∈ map Symbol df \/ t = "^NSEI"%string \/ t = "^BSESN"%string) /\
    (forall t, is_Some (pc !! t) <-> t ∈ map Symbol df \/ t = "^NSEI"%string \/ t = "^BSESN"%string).
Proof.
  intros Hd.
  destruct (fold_left (record_ticker close_data) (all_tickers df) (∅, ∅))
    as [cp pc] eqn:Hloop.
  exists cp, pc, (log ++ [Enter FetchMarketData] ++ [YfDownload (all_tickers df)]).
  split; [rewrite (fetch_market_data_ok _ _ _ _ Hd), Hloop; reflexivity|].
  assert (Hkeys : forall t, t ∈ all_tickers df <->
            t ∈ map Symbol df \/ t = "^NSEI"%string \/ t = "^BSESN"%string).
  { intros t. unfold all_tickers, indices.
    rewrite elem_of_app, !elem_of_cons, elem_of_nil. tauto. }
  split; intros t; rewrite <- Hkeys.
  - destruct (decide (t ∈ all_tickers df)) as [Hin|Hout].
    + destruct (record_loop_lookup close_data _ (∅, ∅) t Hin) as [Hp _].
      rewrite Hloop in Hp. simpl in Hp. rewrite Hp. split; eauto.
    + destruct (record_loop_lookup_other close_data _ (∅, ∅) t Hout) as [Hp _].
      rewrite Hloop in Hp. simpl in Hp. rewrite Hp, lookup_empty.
      split; [intros [? ?]; discriminate | tauto].
  - destruct (decide (t ∈ all_tickers df)) as [Hin|Hout].
    + destruct (record_loop_lookup close_data _ (∅, ∅) t Hin) as [_ Hc].
      rewrite Hloop in Hc. simpl in Hc. rewrite Hc. split; eauto.
    + destruct (record_loop_lookup_other close_data _ (∅, ∅) t Hout) as [_ Hc].
      rewrite Hloop in Hc. simpl in Hc. rewrite Hc, lookup_empty.
      split; [intros [? ?]; discriminate | tauto].
Qed.

Lemma fetch_market_data_keys_witness :
  exists (cp pc : gmap string fl) (log' : list event),
    fetch_market_data gappy_download [aaa_position] [] = (Ok (cp, pc), log') /\
    (forall t, is_Some (cp !! t) <->
       t ∈ map Symbol [aaa_position] \/ t = "^NSEI"%string \/ t = "^BSESN"%string) /\
    (forall t, is_Some (pc !! t) <->
       t ∈ map Symbol [aaa_position] \/ t = "^NSEI"%string \/ t = "^BSESN"%string).
Proof.
  apply (fetch_market_data_keys gappy_download [aaa_position] gappy_close []).
  reflexivity.
Defined.

(** X8.  In the pipeline no position is left without a price: when the
    frame is computed from the dicts that [fetch_market_data] returned for
    the same portfolio, no row has a missing [CurrentPrice]. *)
Theorem pipeline_prices_never_missing
    (yf_download : list string -> result (gmap string (list fl)))
    (df : list Position) (close_data : gmap string (list fl)) (log : list event) :
  yf_download (all_tickers df) = Ok close_data ->
  exists (cp pc : gmap string fl) (log' : list event),
    fetch_market_data yf_download df log = (Ok (cp, pc), log') /\
    forall r, r ∈ full_df (calculate_performance df cp pc) -> CurrentPrice r <> NaN.
Proof.
  intros Hd.
  destruct (fold_left (record_ticker close_data) (all_tickers df) (∅, ∅))
    as [cp pc] eqn:Hloop.
  exists cp, pc, (log ++ [Enter FetchMarketData] ++ [YfDownload (all_tickers df)]).
  split; [rewrite (fetch_market_data_ok _ _ _ _ Hd), Hloop; reflexivity|].
  intros r Hr. apply full_df_rows in Hr as (p & Hp & ->). simpl.
  destruct (record_loop_lookup close_data _ (∅, ∅) _
              (position_symbol_in_tickers _ _ Hp)) as [Hprice _].
  rewrite Hloop in Hprice. simpl in Hprice.
  unfold series_map. rewrite Hprice. simpl. apply quote_price_not_nan.
Qed.

Lemma pipeline_prices_never_missing_witness :
  exists (cp pc : gmap string fl) (log' : list event),
    fetch_market_data gappy_download [aaa_position] [] = (Ok (cp, pc), log') /\
    forall r, r ∈ full_df (calculate_performance [aaa_position] cp pc) ->
              CurrentPrice r <> NaN.
Proof.
  apply (pipeline_prices_never_missing gappy_download [aaa_position] gappy_close []).
  reflexivity.
Defined.

(** X9.  A close that did not move gives no P&L: for a position whose last
    two observations are the same non-zero number, the row has that number
    for price, a change of 0, and a daily P&L of 0 whenever its current
    value is a finite number. *)
Theorem pipeline_flat_close_zero_pnl
    (yf_download : list string -> result (gmap string (list fl)))
    (df : list Position) (close_data : gmap string (list fl)) (log : list event)
    (p : Position) (c : Q) (series earlier gap trailing : list fl) :
  yf_download (all_tickers df) = Ok close_data ->
  p ∈ df ->
  close_data !! Symbol p = Some series ->
  series = earlier ++ Fin c :: gap ++ Fin c :: trailing ->
  all_nan gap -> all_nan trailing ->
  ~ (c == 0)%Q ->
  exists (cp pc : gmap string fl) (log' : list event),
    fetch_market_data yf_download df log = (Ok (cp, pc), log') /\
    CurrentPrice (enrich cp pc p) = Fin c /\
    fl_eq (ChangePct (enrich cp pc p)) (Fin 0) /\
    forall v : Q, CurrentValue (enrich cp pc p) = Fin v ->
                  fl_eq (DailyPnL (enrich cp pc p)) (Fin 0).
Proof.
  intros Hd Hp Hs Hseries Hgap Htrail Hc.
  destruct (fold_left (record_ticker close_data) (all_tickers df) (∅, ∅))
    as [cp pc] eqn:Hloop.
  exists cp, pc, (log ++ [Enter FetchMarketData] ++ [YfDownload (all_tickers df)]).
  split; [rewrite (fetch_market_data_ok _ _ _ _ Hd), Hloop; reflexivity|].
  assert (Hobs : dropna series = dropna earlier ++ [Fin c; Fin c])
    by (rewrite Hseries; apply dropna_last_two; [discriminate | discriminate | assumption..]).
  destruct (record_loop_lookup close_data _ (∅, ∅) _
              (position_symbol_in_tickers _ _ Hp)) as [Hprice Hchange].
  rewrite Hloop, (ticker_quote_two _ _ _ _ _ _ Hs Hobs) in Hprice, Hchange.
  cbn [fst snd quote_or_default] in Hprice, Hchange.
  assert (Hquot : fmul (fdiv (fsub (Fin c) (Fin c)) (Fin c)) (Fin 100)
                  = Fin ((c + - c) / c * 100)).
  { apply Qeq_bool_false_iff in Hc. cbn [fsub fadd fneg fdiv fmul]. rewrite Hc. reflexivity. }
  rewrite Hquot in Hchange.
  assert (Hflat : ((c + - c) / c * 100 == 0)%Q) by (field; exact Hc).
  assert (Hd1 : Qeq_bool (1 + (c + - c) / c * 100 / 100) 0 = false).
  { apply Qeq_bool_false_iff. rewrite Hflat. discriminate. }
  unfold enrich, series_map. rewrite Hprice, Hchange. simpl.
  split; [reflexivity|]. split; [exact Hflat|].
  intros v Hv. rewrite Hv. simpl. rewrite Hd1. simpl.
  rewrite Hflat. field.
Qed.

Lemma pipeline_flat_close_zero_pnl_witness :
  exists (cp pc : gmap string fl) (log' : list event),
    fetch_market_data flat_download [aaa_position] [] = (Ok (cp, pc), log') /\
    CurrentPrice (enrich cp pc aaa_position) = Fin 110 /\
    fl_eq (ChangePct (enrich cp pc aaa_position)) (Fin 0) /\
    forall v : Q, CurrentValue (enrich cp pc aaa_position) = Fin v ->
                  fl_eq (DailyPnL (enrich cp pc aaa_position)) (Fin 0).
Proof.
  apply (pipeline_flat_close_zero_pnl flat_download [aaa_position] flat_close []
           aaa_position 110 [Fin 110; NaN; Fin 110] [] [NaN] []).
  - reflexivity.
  - apply list_elem_of_here.
  - vm_compute. reflexivity.
  - reflexivity.
  - repeat constructor.
  - constructor.
  - intros H. vm_compute in H. discriminate.
Defined.

Lemma nansum_zeros (l : list fl) (a : fl) :
  fl_eq a (Fin 0) ->
  Forall (fun x => x = NaN \/ fl_eq x (Fin 0)) l ->
  fl_eq (fold_left fadd (map (fun x => if isnan x then Fin 0 else x) l) a) (Fin 0).
Proof.
  intros Ha Hl. revert a Ha. induction Hl as [|x l Hx _ IH]; intros a Ha; [exact Ha|].
  simpl. apply IH. destruct Hx as [->|Hx]; simpl.
  - rewrite fadd_zero_r. exact Ha.
  - destruct x as [q| | |]; try contradiction.
    change (q == 0)%Q in Hx. rewrite Ha.
    change (0 + q == 0)%Q. rewrite Hx. reflexivity.
Qed.

(** X10.  When the answer of the price service has no column for any ticker
    of the batch, every ticker takes the [except] branch and the snapshot
    is all zero: each row has price 0 and change 0, and both totals are 0,
    whatever the quantities are. *)
Theorem all_columns_missing_gives_zero_snapshot
    (yf_download : list string -> result (gmap string (list fl)))
    (df : list Position) (close_data : gmap string (list fl)) (log : list event) :
  yf_download (all_tickers df) = Ok close_data ->
  (forall t, t ∈ all_tickers df -> close_data !! t = None) ->
  exists (cp pc : gmap string fl) (log' : list event),
    fetch_market_data yf_download df log = (Ok (cp, pc), log') /\
    (forall r, r ∈ full_df (calculate_performance df cp pc) ->
       CurrentPrice r = Fin 0 /\ ChangePct r = Fin 0) /\
    fl_eq (total_value (calculate_performance df cp pc)) (Fin 0) /\
    fl_eq (total_daily_pnl (calculate_performance df cp pc)) (Fin 0).
Proof.
  intros Hd Hmiss.
  destruct (fold_left (record_ticker close_data) (all_tickers df) (∅, ∅))
    as [cp pc] eqn:Hloop.
  exists cp, pc, (log ++ [Enter FetchMarketData] ++ [YfDownload (all_tickers df)]).
  split; [rewrite (fetch_market_data_ok _ _ _ _ Hd), Hloop; reflexivity|].
  assert (Hrow : forall p, p ∈ df ->
            series_map cp (Symbol p) = Fin 0 /\ series_map pc (Symbol p) = Fin 0).
  { intros p Hp. pose proof (position_symbol_in_tickers _ _ Hp) as Ht.
    destruct (record_loop_lookup close_data _ (∅, ∅) _ Ht) as [Hprice Hchange].
    rewrite Hloop, (ticker_quote_missing_column _ _ (Hmiss _ Ht)) in Hprice, Hchange.
    simpl in Hprice, Hchange. unfold series_map. rewrite Hprice, Hchange. auto. }
  split; [|split].
  - intros r Hr. apply full_df_rows in Hr as (p & Hp & ->). simpl. auto.
  - unfold calculate_performance, nansum; simpl.
    apply nansum_zeros; [reflexivity|].
    rewrite List.Forall_forall. intros x Hx.
    apply in_map_iff in Hx as (r & <- & Hr).
    apply in_map_iff in Hr as (p & <- & Hp). apply list_elem_of_In in Hp.
    simpl. destruct (Hrow p Hp) as [-> _].
    destruct (Quantity p) as [q| | |]; simpl; auto. right. ring.
  - unfold calculate_performance, nansum; simpl.
    apply nansum_zeros; [reflexivity|].
    rewrite List.Forall_forall. intros x Hx.
    apply in_map_iff in Hx as (r & <- & Hr).
    apply in_map_iff in Hr as (p & <- & Hp). apply list_elem_of_In in Hp.
    simpl. destruct (Hrow p Hp) as [-> ->].
    destruct (Quantity p) as [q| | |]; simpl; auto. right. field.
Qed.

Lemma all_columns_missing_gives_zero_snapshot_witness :
  exists (cp pc : gmap string fl) (log' : list event),
    fetch_market_data empty_download [aaa_position] [] = (Ok (cp, pc), log') /\
    (forall r, r ∈ full_df (calculate_performance [aaa_position] cp pc) ->
       CurrentPrice r = Fin 0 /\ ChangePct r = Fin 0) /\
    fl_eq (total_value (calculate_performance [aaa_position] cp pc)) (Fin 0) /\
    fl_eq (total_daily_pnl (calculate_performance [aaa_position] cp pc)) (Fin 0).
Proof.
  apply (all_columns_missing_gives_zero_snapshot empty_download [aaa_position] ∅ []).
  - reflexivity.
  - intros t _. reflexivity.
Defined.

(** ** calculate_performance: totals and movers *)

Lemma fadd_not_finite_l (a b : fl) : isfinite a = false -> isfinite (fadd a b) = false.
Proof. destruct a, b; simpl; congruence. Qed.

Lemma fadd_not_finite_r (a b : fl) : isfinite b = false -> isfinite (fadd a b) = false.
Proof. destruct a, b; simpl; congruence. Qed.

Lemma fold_fadd_not_finite (l : list fl) (a : fl) :
  isfinite a = false -> isfinite (fold_left fadd l a) = false.
Proof.
  revert a. induction l as [|x l IH]; intros a Ha; [exact Ha|].
  simpl. apply IH, fadd_not_finite_l, Ha.
Qed.

Lemma nansum_infinite_cell (l : list fl) (x a : fl) :
  In x l -> x = PInf \/ x = NInf ->
  isfinite (fold_left fadd (map (fun y => if isnan y then Fin 0 else y) l) a) = false.
Proof.
  intros Hin Hx. revert a. induction l as [|y l IH]; intros a; [destruct Hin|].
  simpl. destruct Hin as [->|Hin].
  - apply fold_fadd_not_finite, fadd_not_finite_r. destruct Hx as [-> | ->]; reflexivity.
  - apply IH, Hin.
Qed.

(** X11.  The missing guard reaches the total: as soon as one position with
    a non-zero numeric current value is quoted at -100 percent, the total
    daily P&L of the snapshot is not a finite number, whatever the other
    positions are. *)
Theorem total_daily_pnl_not_finite (df : list Position) (cp pc : gmap string fl)
    (r : Row) (v c : Q) :
  r ∈ full_df (calculate_performance df cp pc) ->
  CurrentValue r = Fin v ->
  ~ (v == 0)%Q ->
  ChangePct r = Fin c ->
  (c == -100)%Q ->
  isfinite (total_daily_pnl (calculate_performance df cp pc)) = false.
Proof.
  intros Hr Hv Hnz Hc Hc100.
  assert (Hpnl : DailyPnL r = PInf \/ DailyPnL r = NInf).
  { rewrite (daily_pnl_of_row _ _ _ _ Hr), Hv, Hc, pnl_divisor_fin.
    unfold fdiv.
    assert (Hd : Qeq_bool (1 + c / 100) 0 = true)
      by (apply Qeq_bool_iff, pnl_divisor_zero_iff, Hc100).
    apply Qeq_bool_false_iff in Hnz. rewrite Hd, Hnz.
    destruct (Qltb v 0); simpl; auto. }
  unfold calculate_performance, nansum; simpl.
  apply (nansum_infinite_cell _ (DailyPnL r)); [|exact Hpnl].
  apply in_map. apply list_elem_of_In. exact Hr.
Qed.

Lemma total_daily_pnl_not_finite_witness :
  isfinite (total_daily_pnl (calculate_performance [aaa_position]
              {["AAA.NS" := Fin 110]} {["AAA.NS" := Fin (-100)]})) = false.
Proof.
  apply (total_daily_pnl_not_finite [aaa_position]
           {["AAA.NS" := Fin 110]} {["AAA.NS" := Fin (-100)]}
           (enrich {["AAA.NS" := Fin 110]} {["AAA.NS" := Fin (-100)]} aaa_position)
           (10 * 110) (-100)).
  - apply list_elem_of_here.
  - vm_compute. reflexivity.
  - intros H. vm_compute in H. discriminate.
  - vm_compute. reflexivity.
  - reflexivity.
Defined.

(** X12.  With three positions or fewer the two rankings are not disjoint:
    each of them lists every position of the frame, so every position is at
    once a top gainer and a top loser. *)
Theorem small_portfolio_movers_overlap (df : list Position) (cp pc : gmap string fl) :
  (length df <= 3)%nat ->
  let perf := calculate_performance df cp pc in
  Permutation (top_gainers perf) (map mover_columns (full_df perf)) /\
  Permutation (top_losers perf) (map mover_columns (full_df perf)).
Proof.
  intros Hlen perf.
  assert (Hrows : (length (full_df perf) <= 3)%nat)
    by (unfold perf, calculate_performance; simpl; rewrite length_map; exact Hlen).
  unfold perf, calculate_performance, nlargest, nsmallest in *; simpl in *.
  split; apply Permutation_map.
  - rewrite firstn_all2 by (rewrite rank_rows_length; exact Hrows).
    apply rank_rows_perm.
  - rewrite firstn_all2 by (rewrite rank_rows_length; exact Hrows).
    apply rank_rows_perm.
Qed.

Lemma small_portfolio_movers_overlap_witness :
  let perf := calculate_performance [aaa_position] ∅ ∅ in
  Permutation (top_gainers perf) (map mover_columns (full_df perf)) /\
  Permutation (top_losers perf) (map mover_columns (full_df perf)).
Proof.
  apply (small_portfolio_movers_overlap [aaa_position] ∅ ∅). simpl. lia.
Defined.

Lemma sorted_head_tail {A : Type} (R : A -> A -> Prop) (l : list A) (n : nat) :
  StronglySorted R l ->
  forall a b, In a (firstn n l) -> In b (skipn n l) -> R a b.
Proof.
  intros Hs. revert n. induction Hs as [|x l Hl IH Hx]; intros n a b Ha Hb.
  - rewrite firstn_nil in Ha. destruct Ha.
  - destruct n as [|n]; [destruct Ha|]. simpl in Ha, Hb. destruct Ha as [<-|Ha].
    + rewrite List.Forall_forall in Hx. apply Hx.
      rewrite <- (firstn_skipn n l). apply in_or_app. right. exact Hb.
    + eapply IH; eauto.
Qed.

(** X13.  The selection leaves nothing better outside: the rows of the
    frame split into the three behind [top_gainers] and a rest, and every
    row of the rest has a missing change or one at most as high as the
    change of every selected row; likewise every row left out of
    [top_losers] has a missing change or one at least as high as the change
    of every selected row. *)
Theorem top_movers_dominate_the_rest (df : list Position) (cp pc : gmap string fl) :
  let perf := calculate_performance df cp pc in
  (exists top rest : list Row,
     top_gainers perf = map mover_columns top /\
     Permutation (top ++ rest) (full_df perf) /\
     forall g r, In g top -> In r rest ->
                 ChangePct r = NaN \/ fl_le (ChangePct r) (ChangePct g)) /\
  (exists top rest : list Row,
     top_losers perf = map mover_columns top /\
     Permutation (top ++ rest) (full_df perf) /\
     forall g r, In g top -> In r rest ->
                 ChangePct r = NaN \/ fl_le (ChangePct g) (ChangePct r)).
Proof.
  intros perf. split.
  - exists (nlargest 3 ChangePct (full_df perf)),
           (skipn 3 (rank_rows (fun a b => outranks_desc (ChangePct a) (ChangePct b))
                       (full_df perf))).
    split; [reflexivity|]. split.
    + unfold nlargest. rewrite firstn_skipn. apply rank_rows_perm.
    + apply (sorted_head_tail
               (fun a b => ChangePct b = NaN \/ fl_le (ChangePct b) (ChangePct a))).
      apply ranked_descending.
  - exists (nsmallest 3 ChangePct (full_df perf)),
           (skipn 3 (rank_rows (fun a b => outranks_asc (ChangePct a) (ChangePct b))
                       (full_df perf))).
    split; [reflexivity|]. split.
    + unfold nsmallest. rewrite firstn_skipn. apply rank_rows_perm.
    + apply (sorted_head_tail
               (fun a b => ChangePct b = NaN \/ fl_le (ChangePct a) (ChangePct b))).
      apply ranked_ascending.
Qed.

(** ** Reasoning on logged computations *)

Lemma emit_bind {A : Type} (e : event) (m : M A) (log : list event) :
  (emit e;; m) log = m (log ++ [e]).
Proof. reflexivity. Qed.

Lemma bind_ok {A B : Type} (m : M A) (k : A -> M B) (a : A) (log log' : list event) :
  m log = (Ok a, log') -> (m ≫= k) log = k a log'.
Proof. intros H. unfold mbind, M_bind. rewrite H. reflexivity. Qed.

Lemma bind_raise {A B : Type} (m : M A) (k : A -> M B) (e : string)
    (log log' : list event) :
  m log = (Raise e, log') -> (m ≫= k) log = (Raise e, log').
Proof. intros H. unfold mbind, M_bind. rewrite H. reflexivity. Qed.

Lemma bind_ok_inv {A B : Type} (m : M A) (k : A -> M B) (b : B)
    (log log' : list event) :
  (m ≫= k) log = (Ok b, log') ->
  exists a l, m log = (Ok a, l) /\ k a l = (Ok b, log').
Proof.
  unfold mbind, M_bind. destruct (m log) as [[a|e] l]; [eauto | discriminate].
Qed.

(** ** The services: news, narrative, delivery *)

Section NewsFacts.
Variable urllib_quote : string -> string.
Variable feedparser_parse : string -> result (list (string * string)).

Lemma news_lines_nil (entries : list (string * string)) :
  news_lines entries = [] <-> entries = [].
Proof.
  unfold news_lines. destruct entries as [|e l]; [tauto|].
  cbn [firstn map]. split; discriminate.
Qed.

Lemma fetch_news_step_ok (news_items : gmap string string) (query : string)
    (entries : list (string * string)) (log : list event) :
  feedparser_parse (news_url urllib_quote query) = Ok entries ->
  fetch_news_step urllib_quote feedparser_parse news_items query log
  = (Ok (match news_lines entries with
         | [] => news_items
         | _ => <[query := String.concat newline (news_lines entries)]> news_items
         end),
     log ++ [FeedParse (news_url urllib_quote query)]).
Proof.
  intros Hfeed. unfold fetch_news_step, mbind, M_bind, emit, lift.
  rewrite Hfeed. fold (news_lines entries).
  destruct (news_lines entries); reflexivity.
Qed.

Lemma fetch_news_step_raise (news_items : gmap string string) (query msg : string)
    (log : list event) :
  feedparser_parse (news_url urllib_quote query) = Raise msg ->
  fetch_news_step urllib_quote feedparser_parse news_items query log
  = (Raise msg, log ++ [FeedParse (news_url urllib_quote query)]).
Proof.
  intros Hfeed. unfold fetch_news_step, mbind, M_bind, emit, lift.
  rewrite Hfeed. reflexivity.
Qed.

Lemma fetch_news_loop_ok (feed : string -> list (string * string))
    (queries : list string) (news_items : gmap string string) (log : list event) :
  (forall q, q ∈ queries -> feedparser_parse (news_url urllib_quote q) = Ok (feed q)) ->
  exists news : gmap string string,
    fetch_news_loop urllib_quote feedparser_parse queries news_items log
    = (Ok news, log ++ map (fun q => FeedParse (news_url urllib_quote q)) queries) /\
    forall q, news !! q =
      if decide (q ∈ queries /\ feed q <> [])
      then Some (String.concat newline (news_lines (feed q)))
      else news_items !! q.
Proof.
  revert news_items log. induction queries as [|x l IH]; intros acc log Hfeed.
  - exists acc. split; [simpl; rewrite app_nil_r; reflexivity|].
    intros q. rewrite decide_False; [reflexivity|]. rewrite elem_of_nil. tauto.
  - cbn [fetch_news_loop]. unfold mbind at 1, M_bind at 1.
    rewrite (fetch_news_step_ok _ _ (feed x)) by (apply Hfeed; left).
    destruct (IH (match news_lines (feed x) with
                  | [] => acc
                  | _ => <[x := String.concat newline (news_lines (feed x))]> acc
                  end) (log ++ [FeedParse (news_url urllib_quote x)])) as (news & Hrun & Hlook).
    { intros q Hq. apply Hfeed. right. exact Hq. }
    exists news. split.
    + rewrite Hrun. simpl. rewrite <- app_assoc. reflexivity.
    + intros q. rewrite Hlook.
      destruct (decide (q ∈ l /\ feed q <> [])) as [[Hq Hne]|Hno].
      * rewrite decide_True; [reflexivity|]. split; [right; exact Hq | exact Hne].
      * destruct (decide (q = x)) as [->|Hqx].
        -- destruct (news_lines (feed x)) as [|line lines] eqn:Hlines.
           ++ apply news_lines_nil in Hlines. rewrite decide_False; [reflexivity|].
              intros [_ Hne]. contradiction.
           ++ rewrite lookup_insert_eq. rewrite decide_True; [reflexivity|].
              split; [left|]. intros Hnil. apply news_lines_nil in Hnil. congruence.
        -- assert (Hacc : match news_lines (feed x) with
                          | [] => acc
                          | _ => <[x := String.concat newline (news_lines (feed x))]> acc
                          end !! q = acc !! q).
           { destruct (news_lines (feed x)); [reflexivity|].
             apply lookup_insert_ne. congruence. }
           rewrite Hacc. rewrite decide_False; [reflexivity|].
           intros [Hq Hne]. apply Hno. split; [|exact Hne].
           apply elem_of_cons in Hq as [Hq|Hq]; [contradiction | exact Hq].
Qed.

(** X14.  When every feed request is answered, [fetch_news] sends one
    request per query, in order, and returns a digest that has an entry for
    exactly the queries whose feed is not empty; the entry is made of the
    first two headlines of the feed at most, one per line. *)
Theorem fetch_news_digest (feed : string -> list (string * string))
    (queries : list string) (log : list event) :
  (forall q, q ∈ queries -> feedparser_parse (news_url urllib_quote q) = Ok (feed q)) ->
  exists news : gmap string string,
    fetch_news urllib_quote feedparser_parse queries log
    = (Ok news,
       log ++ Enter FetchNews :: map (fun q => FeedParse (news_url urllib_quote q)) queries) /\
    forall q text,
      news !! q = Some text <->
      q ∈ queries /\ feed q <> [] /\
      text = String.concat newline (news_lines (feed q)) /\
      (length (news_lines (feed q)) <= 2)%nat.
Proof.
  intros Hfeed.
  destruct (fetch_news_loop_ok feed queries ∅ (log ++ [Enter FetchNews]) Hfeed)
    as (news & Hrun & Hlook).
  exists news. split.
  - unfold fetch_news, mbind, M_bind, emit. rewrite Hrun, <- app_assoc. reflexivity.
  - intros q text. rewrite Hlook.
    assert (Hlen : (length (news_lines (feed q)) <= 2)%nat).
    { unfold news_lines. rewrite length_map, length_firstn. lia. }
    destruct (decide (q ∈ queries /\ feed q <> [])) as [[Hq Hne]|Hno].
    + split.
      * intros [= <-]. auto.
      * intros (_ & _ & -> & _). reflexivity.
    + rewrite lookup_empty. split; [discriminate|]. intros (Hq & Hne & _). tauto.
Qed.

(** X15.  [fetch_news] has no handler of its own: if the feed request of
    one query raises, the whole call raises that error, after the requests
    of the queries before it and with none sent for the queries after it. *)
Theorem fetch_news_aborts_on_failure (feed : string -> list (string * string))
    (before after : list string) (query msg : string) (log : list event) :
  (forall q, q ∈ before -> feedparser_parse (news_url urllib_quote q) = Ok (feed q)) ->
  feedparser_parse (news_url urllib_quote query) = Raise msg ->
  fetch_news urllib_quote feedparser_parse (before ++ query :: after) log
  = (Raise msg,
     log ++ Enter FetchNews :: map (fun q => FeedParse (news_url urllib_quote q)) (before ++ [query])).
Proof.
  intros Hfeed Hfail.
  assert (Hloop : forall acc l,
            fetch_news_loop urllib_quote feedparser_parse (before ++ query :: after) acc l
            = (Raise msg, l ++ map (fun q => FeedParse (news_url urllib_quote q)) (before ++ [query]))).
  { induction before as [|x b IH]; intros acc l.
    - cbn [app fetch_news_loop]. unfold mbind, M_bind.
      rewrite (fetch_news_step_raise _ _ _ _ Hfail). reflexivity.
    - cbn [app fetch_news_loop]. unfold mbind at 1, M_bind at 1.
      rewrite (fetch_news_step_ok _ _ (feed x)) by (apply Hfeed; left).
      rewrite IH by (intros q Hq; apply Hfeed; right; exact Hq).
      simpl. rewrite <- app_assoc. reflexivity. }
  unfold fetch_news, mbind, M_bind, emit. rewrite Hloop, <- app_assoc. reflexivity.
Qed.

End NewsFacts.

Lemma fetch_news_digest_witness :
  exists news : gmap string string,
    fetch_news (fun s => s) demo_feed ["NIFTY 50"%string] []
    = (Ok news,
       [] ++ Enter FetchNews
          :: map (fun q => FeedParse (news_url (fun s => s) q)) ["NIFTY 50"%string]) /\
    forall q text,
      news !! q = Some text <->
      q ∈ ["NIFTY 50"%string] /\ demo_headlines q <> [] /\
      text = String.concat newline (news_lines (demo_headlines q)) /\
      (length (news_lines (demo_headlines q)) <= 2)%nat.
Proof.
  apply (fetch_news_digest (fun s => s) demo_feed demo_headlines ["NIFTY 50"%string] []).
  intros q _. reflexivity.
Defined.

Lemma fetch_news_aborts_on_failure_witness :
  fetch_news (fun s => s) failing_feed ([] ++ "NIFTY 50"%string :: ["AAA.NS"%string]) []
  = (Raise "feed unavailable",
     [] ++ Enter FetchNews
        :: map (fun q => FeedParse (news_url (fun s => s) q)) ([] ++ ["NIFTY 50"%string])).
Proof.
  apply (fetch_news_aborts_on_failure (fun s => s) failing_feed demo_headlines
           [] ["AAA.NS"%string] "NIFTY 50" "feed unavailable" []).
  - intros q Hq. inversion Hq.
  - reflexivity.
Defined.

(** ** The orchestrator on working days *)

Section RunFacts.
Variable portfolio_csv : option (list Position).
Variable yf_download : list string -> result (gmap string (list fl)).
Variable urllib_quote : string -> string.
Variable feedparser_parse : string -> result (list (string * string)).
Variable render_prompt :
  Performance -> (fl * fl) * (fl * fl) -> gmap string string -> string.
Variable generate_content : string -> result string.
Variable requests_post : string -> result nat.

Lemma send_error_alert_log (msg : string) (log : list event) :
  send_error_alert requests_post msg log
  = (Ok tt, log ++ [Enter SendErrorAlert;
                    TelegramPost ("Error fetching India Data: " +:+ msg)]).
Proof.
  unfold send_error_alert, try_except, mbind, M_bind, emit, lift, mret, M_ret.
  destruct (requests_post _); rewrite <- app_assoc; reflexivity.
Qed.

Lemma generate_analysis_log (perf : Performance) (index_data : (fl * fl) * (fl * fl))
    (news : gmap string string) (log : list event) :
  generate_analysis render_prompt generate_content perf index_data news log
  = (Ok (match generate_content (render_prompt perf index_data news) with
         | Ok text => text
         | Raise e => "Error generating analysis: " +:+ e
         end),
     log ++ [Enter GenerateAnalysis;
             GeminiGenerate (render_prompt perf index_data news)]).
Proof.
  unfold generate_analysis, try_except, mbind, M_bind, emit, lift, mret, M_ret.
  destruct (generate_content _); rewrite <- app_assoc; reflexivity.
Qed.

Lemma send_telegram_report_log (report : string) (log : list event) :
  send_telegram_report requests_post report log
  = (match requests_post report with
     | Ok _ => Ok tt
     | Raise e => Raise e
     end,
     log ++ [Enter SendTelegramReport; TelegramPost report]).
Proof.
  unfold send_telegram_report, mbind, M_bind, emit, lift, mret, M_ret.
  destruct (requests_post _); rewrite <- app_assoc; reflexivity.
Qed.

Lemma alert_handler_log (e : string) (log : list event) :
  (send_error_alert requests_post e;; mret (Failed e)) log
  = (Ok (Failed e), log ++ [Enter SendErrorAlert;
                            TelegramPost ("Error fetching India Data: " +:+ e)]).
Proof. unfold mbind, M_bind. rewrite send_error_alert_log. reflexivity. Qed.

(** X16.  Without a readable portfolio file a working-day run stops at the
    first stage: it ends in [Failed] with the message of the source, having
    sent one alert to the chat and no request to the price, news or
    narrative services. *)
Theorem run_without_portfolio (today : nat) (log : list event) :
  (today < 5)%nat ->
  portfolio_csv = None ->
  run_briefing portfolio_csv yf_download urllib_quote feedparser_parse
    render_prompt generate_content requests_post today log
  = (Ok (Failed "Failed to load portfolio CSV"),
     log ++ [Enter LoadPortfolio; ReadCsv; Enter SendErrorAlert;
             TelegramPost "Error fetching India Data: Failed to load portfolio CSV"]).
Proof.
  intros Hday Hcsv. unfold run_briefing.
  assert (Hguard : (5 <=? today)%nat = false) by (apply Nat.leb_gt; exact Hday).
  rewrite Hguard, Hcsv. unfold try_except. cbn [load_portfolio].
  unfold mbind at 1 2, M_bind at 1 2, emit, raise, lift.
  rewrite alert_handler_log, <- !app_assoc. reflexivity.
Qed.

(** X17.  A failure of the batch price request is not isolated: on a
    working day, with the portfolio loaded, if [yf.download] raises then the
    run ends in [Failed] with that error, sends one alert and never reaches
    the news, narrative or report stages. *)
Theorem run_with_failed_download (today : nat) (log : list event)
    (df : list Position) (msg : string) :
  (today < 5)%nat ->
  load_portfolio portfolio_csv = Some df ->
  yf_download (all_tickers df) = Raise msg ->
  run_briefing portfolio_csv yf_download urllib_quote feedparser_parse
    render_prompt generate_content requests_post today log
  = (Ok (Failed msg),
     log ++ [Enter LoadPortfolio; ReadCsv; Enter FetchMarketData;
             YfDownload (all_tickers df); Enter SendErrorAlert;
             TelegramPost ("Error fetching India Data: " +:+ msg)]).
Proof.
  intros Hday Hload Hdown. unfold run_briefing.
  assert (Hguard : (5 <=? today)%nat = false) by (apply Nat.leb_gt; exact Hday).
  rewrite Hguard, Hload. unfold try_except.
  unfold mbind at 1 2 3, M_bind at 1 2 3, emit.
  unfold fetch_market_data, mbind at 1 2 3, M_bind at 1 2 3, emit, lift.
  rewrite Hdown. rewrite alert_handler_log, <- !app_assoc. reflexivity.
Qed.
Lemma search_queries_bounded (perf : Performance) :
  (length (top_gainers perf) <= 3)%nat ->
  (length (top_losers perf) <= 3)%nat ->
  let movers := map (fun m : string * fl * fl => m.1.1) (top_gainers perf)
                ++ map (fun m : string * fl * fl => m.1.1) (top_losers perf) in
  let queries := elements (list_to_set ("NIFTY 50"%string :: movers) : gset string) in
  NoDup queries /\ "NIFTY 50"%string ∈ queries /\
  (forall m, m ∈ movers -> m ∈ queries) /\ (length queries <= 7)%nat.
Proof.
  intros Hg Hl movers queries.
  assert (Hin : forall x, x ∈ queries <-> x ∈ "NIFTY 50"%string :: movers).
  { intros x. unfold queries. rewrite elem_of_elements, elem_of_list_to_set. tauto. }
  split; [apply NoDup_elements|]. split; [apply Hin; left|].
  split; [intros m Hm; apply Hin; right; exact Hm|].
  assert (Hsub : queries ⊆+ "NIFTY 50"%string :: movers).
  { apply NoDup_submseteq; [apply NoDup_elements|]. intros x. apply Hin. }
  apply submseteq_length in Hsub. simpl in Hsub. unfold movers in Hsub.
  rewrite length_app, !length_map in Hsub. lia.
Qed.

(** X18.  On a working day, with the portfolio loaded and the price, news
    and chat services answering, the run ends in [Success] after going
    through the stages in the order of the source, with one price request,
    one feed request for each of at most seven distinct queries (the index
    query among them), one narrative request and one post to the chat; the
    text posted is the narrative, or the error text that replaces it when the
    narrative service raises; the status code of the post plays no part. *)
Theorem run_succeeds (today : nat) (df : list Position)
    (close_data : gmap string (list fl))
    (feed : string -> list (string * string)) (status : string -> nat) :
  (today < 5)%nat ->
  load_portfolio portfolio_csv = Some df ->
  yf_download (all_tickers df) = Ok close_data ->
  (forall url, feedparser_parse url = Ok (feed url)) ->
  (forall text, requests_post text = Ok (status text)) ->
  exists (queries : list string) (prompt report : string),
    run_briefing portfolio_csv yf_download urllib_quote feedparser_parse
      render_prompt generate_content requests_post today []
    = (Ok Success,
       [Enter LoadPortfolio; ReadCsv; Enter FetchMarketData;
        YfDownload (all_tickers df); Enter CalculatePerformance; Enter FetchNews]
       ++ map (fun q => FeedParse (news_url urllib_quote q)) queries
       ++ [Enter GenerateAnalysis; GeminiGenerate prompt;
           Enter SendTelegramReport; TelegramPost report]) /\
    NoDup queries /\ "NIFTY 50"%string ∈ queries /\ (length queries <= 7)%nat /\
    report = match generate_content prompt with
             | Ok text => text
             | Raise e => "Error generating analysis: " +:+ e
             end.
Proof.
  intros Hday Hload Hdown Hfeed Hpost. unfold run_briefing.
  assert (Hguard : (5 <=? today)%nat = false) by (apply Nat.leb_gt; exact Hday).
  rewrite Hguard, Hload. unfold try_except.
  rewrite !emit_bind.
  destruct (fold_left (record_ticker close_data) (all_tickers df) (∅, ∅))
    as [cp pc] eqn:Hloop.
  erewrite bind_ok
    by (rewrite (fetch_market_data_ok _ _ _ _ Hdown), Hloop; reflexivity).
  cbn beta iota. rewrite emit_bind. cbv zeta.
  set (perf := calculate_performance df cp pc).
  set (queries := elements (list_to_set _)).
  set (index_data := (_, _)).
  destruct (fetch_news_loop_ok urllib_quote feedparser_parse
              (fun q => feed (news_url urllib_quote q)) queries ∅
              (([] ++ [Enter LoadPortfolio]) ++ [ReadCsv]
               ++ [Enter FetchMarketData] ++ [YfDownload (all_tickers df)]
               ++ [Enter CalculatePerformance] ++ [Enter FetchNews]))
    as (news & Hnews & _); [intros q _; apply Hfeed|].
  erewrite bind_ok.
  2:{ unfold fetch_news. rewrite emit_bind. simpl app in *. exact Hnews. }
  erewrite bind_ok by apply generate_analysis_log.
  erewrite bind_ok
    by (rewrite send_telegram_report_log, Hpost; reflexivity).
  exists queries, (render_prompt perf index_data news),
    (match generate_content (render_prompt perf index_data news) with
     | Ok text => text
     | Raise e => "Error generating analysis: " +:+ e
     end).
  split.
  - unfold mret, M_ret. f_equal. simpl. rewrite <- !app_assoc. reflexivity.
  - destruct (search_queries_bounded perf) as (Hnd & Hidx & _ & Hlen).
    + unfold perf, calculate_performance, nlargest; simpl.
      rewrite length_map, length_firstn. lia.
    + unfold perf, calculate_performance, nsmallest; simpl.
      rewrite length_map, length_firstn. lia.
    + auto.
Qed.

(** X20.  An exception of the chat request is escalated where a bad status
    code is not: with everything before it answering, if [requests.post]
    raises when the report is sent, the run ends in [Failed] with that
    error, and an alert is attempted right after the report. *)
Theorem run_with_failed_delivery (today : nat) (df : list Position)
    (close_data : gmap string (list fl))
    (feed : string -> list (string * string)) (msg : string) :
  (today < 5)%nat ->
  load_portfolio portfolio_csv = Some df ->
  yf_download (all_tickers df) = Ok close_data ->
  (forall url, feedparser_parse url = Ok (feed url)) ->
  (forall text, requests_post text = Raise msg) ->
  exists (before : list event) (report : string),
    run_briefing portfolio_csv yf_download urllib_quote feedparser_parse
      render_prompt generate_content requests_post today []
    = (Ok (Failed msg),
       before ++ [Enter SendTelegramReport; TelegramPost report;
                  Enter SendErrorAlert;
                  TelegramPost ("Error fetching India Data: " +:+ msg)]).
Proof.
  intros Hday Hload Hdown Hfeed Hpost. unfold run_briefing.
  assert (Hguard : (5 <=? today)%nat = false) by (apply Nat.leb_gt; exact Hday).
  rewrite Hguard, Hload. unfold try_except.
  rewrite !emit_bind.
  destruct (fold_left (record_ticker close_data) (all_tickers df) (∅, ∅))
    as [cp pc] eqn:Hloop.
  erewrite bind_ok
    by (rewrite (fetch_market_data_ok _ _ _ _ Hdown), Hloop; reflexivity).
  cbn beta iota. rewrite emit_bind. cbv zeta.
  set (perf := calculate_performance df cp pc).
  set (queries := elements (list_to_set _)).
  set (index_data := (_, _)).
  destruct (fetch_news_loop_ok urllib_quote feedparser_parse
              (fun q => feed (news_url urllib_quote q)) queries ∅
              (([] ++ [Enter LoadPortfolio]) ++ [ReadCsv]
               ++ [Enter FetchMarketData] ++ [YfDownload (all_tickers df)]
               ++ [Enter CalculatePerformance] ++ [Enter FetchNews]))
    as (news & Hnews & _); [intros q _; apply Hfeed|].
  erewrite bind_ok.
  2:{ unfold fetch_news. rewrite emit_bind. simpl app in *. exact Hnews. }
  erewrite bind_ok by apply generate_analysis_log.
  erewrite bind_raise
    by (rewrite send_telegram_report_log, Hpost; reflexivity).
  rewrite alert_handler_log, <- app_assoc. eexists _, _. reflexivity.
Qed.

(** X19.  [run_briefing] never lets an exception out, whatever the file and
    the services do: it always returns, in [Skip] exactly when the day is a
    Saturday or a Sunday, and otherwise in [Success] or [Failed]. *)
Theorem run_briefing_never_raises (today : nat) (log : list event) :
  exists (o : outcome) (log' : list event),
    run_briefing portfolio_csv yf_download urllib_quote feedparser_parse
      render_prompt generate_content requests_post today log = (Ok o, log') /\
    (o = Skip <-> (5 <= today)%nat) /\
    ((today < 5)%nat -> o = Success \/ exists e, o = Failed e).
Proof.
  unfold run_briefing. destruct (5 <=? today)%nat eqn:Hguard.
  - apply Nat.leb_le in Hguard. exists Skip, log.
    split; [reflexivity|]. split; [tauto | lia].
  - apply Nat.leb_gt in Hguard. unfold try_except.
    match goal with
    | |- context [match ?body log with _ => _ end] =>
        destruct (body log) as [[o|e] l] eqn:Hbody
    end.
    + exists o, l. split; [reflexivity|].
      assert (Ho : o = Success).
      { rewrite !emit_bind in Hbody.
        destruct (load_portfolio portfolio_csv) as [df|]; [|discriminate].
        apply bind_ok_inv in Hbody as ([cp pc] & l1 & _ & Hbody).
        cbn beta iota in Hbody. rewrite emit_bind in Hbody. cbv zeta in Hbody.
        apply bind_ok_inv in Hbody as (news & l2 & _ & Hbody).
        apply bind_ok_inv in Hbody as (report & l3 & _ & Hbody).
        apply bind_ok_inv in Hbody as (u & l4 & _ & Hbody).
        unfold mret, M_ret in Hbody. congruence. }
      subst o. split; [split; [discriminate | lia] | auto].
    + rewrite alert_handler_log. eexists _, _. split; [reflexivity|].
      split; [split; [discriminate | lia] | eauto].
Qed.
End RunFacts.

Lemma run_without_portfolio_witness :
  run_briefing None demo_download (fun s => s) demo_feed demo_render demo_generate
    demo_post 0 []
  = (Ok (Failed "Failed to load portfolio CSV"),
     [] ++ [Enter LoadPortfolio; ReadCsv; Enter SendErrorAlert;
            TelegramPost "Error fetching India Data: Failed to load portfolio CSV"]).
Proof.
  apply (run_without_portfolio None demo_download (fun s => s) demo_feed demo_render
           demo_generate demo_post 0 []).
  - lia.
  - reflexivity.
Defined.

Lemma run_with_failed_download_witness :
  run_briefing (Some [raw_position]) failing_download (fun s => s) demo_feed
    demo_render demo_generate demo_post 0 []
  = (Ok (Failed "price service unavailable"),
     [] ++ [Enter LoadPortfolio; ReadCsv; Enter FetchMarketData;
            YfDownload (all_tickers [aaa_position]); Enter SendErrorAlert;
            TelegramPost ("Error fetching India Data: " +:+ "price service unavailable")]).
Proof.
  apply (run_with_failed_download (Some [raw_position]) failing_download (fun s => s)
           demo_feed demo_render demo_generate demo_post 0 [] [aaa_position]
           "price service unavailable").
  - lia.
  - reflexivity.
  - reflexivity.
Defined.

Lemma run_with_failed_delivery_witness :
  exists (before : list event) (report : string),
    run_briefing (Some [raw_position]) demo_download (fun s => s) demo_feed
      demo_render demo_generate failing_post 0 []
    = (Ok (Failed "chat unreachable"),
       before ++ [Enter SendTelegramReport; TelegramPost report;
                  Enter SendErrorAlert;
                  TelegramPost ("Error fetching India Data: " +:+ "chat unreachable")]).
Proof.
  apply (run_with_failed_delivery (Some [raw_position]) demo_download (fun s => s)
           demo_feed demo_render demo_generate failing_post 0 [aaa_position]
           two_day_close demo_headlines "chat unreachable").
  - lia.
  - reflexivity.
  - reflexivity.
  - intros url. reflexivity.
  - intros text. reflexivity.
Defined.

Lemma run_succeeds_witness :
  exists (queries : list string) (prompt report : string),
    run_briefing (Some [raw_position]) demo_download (fun s => s) demo_feed
      demo_render demo_generate demo_post 0 []
    = (Ok Success,
       [Enter LoadPortfolio; ReadCsv; Enter FetchMarketData;
        YfDownload (all_tickers [aaa_position]); Enter CalculatePerformance;
        Enter FetchNews]
       ++ map (fun q => FeedParse (news_url (fun s => s) q)) queries
       ++ [Enter GenerateAnalysis; GeminiGenerate prompt;
           Enter SendTelegramReport; TelegramPost report]) /\
    NoDup queries /\ "NIFTY 50"%string ∈ queries /\ (length queries <= 7)%nat /\
    report = match demo_generate prompt with
             | Ok text => text
             | Raise e => "Error generating analysis: " +:+ e
             end.
Proof.
  apply (run_succeeds (Some [raw_position]) demo_download (fun s => s) demo_feed
           demo_render demo_generate demo_post 0 [aaa_position] two_day_close
           demo_headlines (fun _ => 200%nat)).
  - lia.
  - reflexivity.
  - reflexivity.
  - intros url. reflexivity.
  - intros text. reflexivity.
Defined.

